(** * boru: the interactive prompts of [bin/cli.js]

    A shallow embedding of the two terminal prompts of the CLI,
    [multiselect] and [confirm], of the key handlers they install on
    standard input, and of [main], which runs them around the creation of
    the hook files.  Every call the prompts make on [process.stdin],
    [process.stdout] and [process] is recorded, in program order, in a trace
    of effects; the state of the terminal (raw mode, cursor visibility) is
    read back from that trace. *)

From Stdlib Require Import ZArith List String Ascii Bool Lia Permutation.
Import ListNotations.
Open Scope string_scope.
Open Scope list_scope.
Open Scope Z_scope.

(** ** Strings and key chunks *)

Definition ESC : string := String "027"%char EmptyString.
Definition LF : string := String "010"%char EmptyString.

(** The chunks the handlers compare the incoming [key] with. *)
Definition KEY_CTRL_C : string := String "003"%char EmptyString. (* "\u0003" *)
Definition KEY_UP : string := ESC ++ "[A".                       (* "\u001b[A" *)
Definition KEY_DOWN : string := ESC ++ "[B".                     (* "\u001b[B" *)
Definition KEY_SPACE : string := " ".
Definition KEY_ENTER : string := String "013"%char EmptyString.  (* "\r" *)

Definition hideCursor : string := ESC ++ "[?25l".
Definition showCursor : string := ESC ++ "[?25h".

(** [s.repeat(n)] *)
Fixpoint str_repeat (s : string) (n : nat) : string :=
  match n with
  | O => ""
  | S n' => s ++ str_repeat s n'
  end.

(** [key.toLowerCase()], on the ASCII letters.  Characters outside ASCII keep
    their bytes: none of them lowers to the letters "y" or "n" the result is
    compared with. *)
Definition lower_ascii (c : ascii) : ascii :=
  let n := nat_of_ascii c in
  if (andb (Nat.leb 65 n) (Nat.leb n 90)) then ascii_of_nat (n + 32) else c.

Fixpoint toLowerCase (s : string) : string :=
  match s with
  | EmptyString => EmptyString
  | String c r => String (lower_ascii c) (toLowerCase r)
  end.

(** ** Data model *)

(** One entry of the list passed to [multiselect]: [{ key, name, desc }]. *)
Record Opt : Type := mkOpt { key : string; name : string; desc : string }.

(** The calls a prompt makes on the process and its streams. *)
Inductive Effect : Type :=
| Write (s : string)            (* stdout.write(s) *)
| MoveCursor (dx dy : Z)        (* stdout.moveCursor(dx, dy) *)
| ClearLine (dir : Z)           (* stdout.clearLine(dir) *)
| SetRawMode (mode : bool)      (* stdin.setRawMode(mode) *)
| Resume                        (* stdin.resume() *)
| Pause                         (* stdin.pause() *)
| SetEncoding (enc : string)    (* stdin.setEncoding(enc) *)
| OnData                        (* stdin.on("data", handleKey) *)
| RemoveListener                (* stdin.removeListener("data", handleKey) *)
| Exit (code : Z).              (* process.exit(code) *)

(** Where the promise returned by a prompt stands. *)
Inductive Status (R : Type) : Type :=
| Pending                       (* the handler is installed, nothing decided *)
| Resolved (r : R)              (* resolve(r) was called *)
| Exited (code : Z)             (* process.exit(code) was called *)
| Thrown (err : string).        (* the handler threw *)

Arguments Pending {R}.
Arguments Resolved {R} r.
Arguments Exited {R} code.
Arguments Thrown {R} err.

(** ** The terminal, as the trace leaves it *)

Record Terminal : Type := mkTerminal { rawMode : bool; cursorHidden : bool }.

Definition apply_effect (t : Terminal) (e : Effect) : Terminal :=
  match e with
  | SetRawMode b => {| rawMode := b; cursorHidden := cursorHidden t |}
  | Write s =>
      if String.eqb s hideCursor then {| rawMode := rawMode t; cursorHidden := true |}
      else if String.eqb s showCursor then {| rawMode := rawMode t; cursorHidden := false |}
      else t
  | _ => t
  end.

(** A prompt starts on a cooked terminal with a visible cursor. *)
Definition terminal0 : Terminal := {| rawMode := false; cursorHidden := false |}.

Definition terminal_after (tr : list Effect) : Terminal :=
  fold_left apply_effect tr terminal0.

Definition is_acquire (e : Effect) : bool :=
  match e with SetRawMode true => true | _ => false end.

Definition is_release (e : Effect) : bool :=
  match e with SetRawMode false => true | _ => false end.

(** Number of [setRawMode(true)] and of [setRawMode(false)] calls. *)
Definition acquires (tr : list Effect) : nat := List.length (filter is_acquire tr).
Definition releases (tr : list Effect) : nat := List.length (filter is_release tr).

(** The calls that leave the input mode alone. *)
Definition keeps_mode (e : Effect) : bool :=
  match e with SetRawMode _ => false | _ => true end.

(** The acquire-then-release discipline, read off a trace [tr] and the status
    [s] the prompt has reached: raw mode is entered once; while the prompt is
    pending the terminal is raw; once the prompt has resolved (or its handler
    has thrown) raw mode was left once and the cursor shows; when the process
    was ended by [process.exit] the cursor shows, the exit status is 1 and
    [setRawMode(false)] was not called. *)
Definition session_ok {R : Type} (tr : list Effect) (s : Status R) : Prop :=
  acquires tr = 1%nat /\
  match s with
  | Pending => releases tr = 0%nat /\ rawMode (terminal_after tr) = true
  | Resolved _ | Thrown _ =>
      releases tr = 1%nat
      /\ rawMode (terminal_after tr) = false
      /\ cursorHidden (terminal_after tr) = false
  | Exited code =>
      code = 1
      /\ releases tr = 0%nat
      /\ rawMode (terminal_after tr) = true
      /\ cursorHidden (terminal_after tr) = false
  end.

(** The last string written to standard output. *)
Definition last_write (tr : list Effect) : option string :=
  fold_left (fun acc e => match e with Write s => Some s | _ => acc end) tr None.

(** ** A JavaScript [Set] of numbers: its elements in insertion order *)

Module JsSet.

Definition t : Type := list Z.

Definition has (x : Z) (s : t) : bool := existsb (Z.eqb x) s.

Definition add (x : Z) (s : t) : t := if has x s then s else s ++ [x].

Definition delete (x : Z) (s : t) : t := filter (fun y => negb (Z.eqb y x)) s.

(** [new Set(xs)] *)
Definition of_list (xs : list Z) : t := fold_left (fun s x => add x s) xs [].

(** [Array.from(s)] *)
Definition to_array (s : t) : list Z := s.

End JsSet.

(** ** [multiselect] *)

Module Multiselect.

Record State : Type := mkState {
  cursor : Z;
  selected : JsSet.t;
  trace : list Effect;
  status : Status (list string)
}.

(** The body of the [forEach] callback of [render], for row [i]. *)
Definition render_row (cur : Z) (sel : JsSet.t) (i : Z) (opt : Opt) : list Effect :=
  let isSelected := JsSet.has i sel in
  let isCursor := Z.eqb i cur in
  let checkbox := (if isSelected then ESC ++ "[32m◉" ++ ESC ++ "[0m"
                   else ESC ++ "[2m◯" ++ ESC ++ "[0m")%string in
  let pointer := (if isCursor then ESC ++ "[36m❯" ++ ESC ++ "[0m" else " ")%string in
  let label :=
    (if isCursor then ESC ++ "[1m" ++ name opt ++ ESC ++ "[0m" else name opt)%string in
  let desc := (ESC ++ "[2m- " ++ desc opt ++ ESC ++ "[0m")%string in
  [ClearLine 0;
   Write (pointer ++ " " ++ checkbox ++ " " ++ label ++ " " ++ desc ++ LF)].

Fixpoint render_rows (cur : Z) (sel : JsSet.t) (i : Z) (opts : list Opt) : list Effect :=
  match opts with
  | [] => []
  | opt :: rest => render_row cur sel i opt ++ render_rows cur sel (i + 1) rest
  end.

Definition render (options : list Opt) (cur : Z) (sel : JsSet.t) : list Effect :=
  MoveCursor 0 (- Z.of_nat (List.length options)) :: render_rows cur sel 0 options.

(** [options[i]]: [undefined] outside the array. *)
Definition get (options : list Opt) (i : Z) : option Opt :=
  if Z.ltb i 0 then None else nth_error options (Z.to_nat i).

(** [xs.map((i) => options[i].key)]: reading [key] of [undefined] throws. *)
Fixpoint map_keys (options : list Opt) (xs : list Z) : option (list string) :=
  match xs with
  | [] => Some []
  | i :: rest =>
      match get options i with
      | None => None
      | Some opt =>
          match map_keys options rest with
          | None => None
          | Some ks => Some (key opt :: ks)
          end
      end
  end.

(** The two cursor moves of [handleKey]. *)
Definition cursor_up (options : list Opt) (cur : Z) : Z :=
  if Z.gtb cur 0 then cur - 1 else Z.of_nat (List.length options) - 1.

Definition cursor_down (options : list Opt) (cur : Z) : Z :=
  if Z.ltb cur (Z.of_nat (List.length options) - 1) then cur + 1 else 0.

(** The toggle of the Space branch. *)
Definition toggle (cur : Z) (sel : JsSet.t) : JsSet.t :=
  if JsSet.has cur sel then JsSet.delete cur sel else JsSet.add cur sel.

(** The prompt up to the point where it returns its promise. *)
Definition multiselect (options : list Opt) : State :=
  let cursor := 0 in
  let selected := JsSet.of_list [0] in
  {| cursor := cursor;
     selected := selected;
     trace := [Write hideCursor]
                ++ [Write (str_repeat LF (List.length options))]
                ++ render options cursor selected
                ++ [SetRawMode true; Resume; SetEncoding "utf8"]
                ++ [OnData];
     status := Pending |}.

(** One call of the listener.  The five [if]s run in sequence;
    [process.exit] does not return. *)
Definition handleKey (options : list Opt) (key : string) (st : State) : State :=
  if String.eqb key KEY_CTRL_C then
    {| cursor := cursor st; selected := selected st;
       trace := trace st ++ [Write showCursor; Exit 1];
       status := Exited 1 |}
  else
    let st :=
      if String.eqb key KEY_UP then
        let cur := cursor_up options (cursor st) in
        {| cursor := cur; selected := selected st;
           trace := trace st ++ render options cur (selected st);
           status := status st |}
      else st in
    let st :=
      if String.eqb key KEY_DOWN then
        let cur := cursor_down options (cursor st) in
        {| cursor := cur; selected := selected st;
           trace := trace st ++ render options cur (selected st);
           status := status st |}
      else st in
    let st :=
      if String.eqb key KEY_SPACE then
        let sel := toggle (cursor st) (selected st) in
        {| cursor := cursor st; selected := sel;
           trace := trace st ++ render options (cursor st) sel;
           status := status st |}
      else st in
    if String.eqb key KEY_ENTER then
      let tr := trace st ++ [RemoveListener; SetRawMode false; Pause; Write showCursor] in
      {| cursor := cursor st; selected := selected st;
         trace := tr;
         status := match map_keys options (JsSet.to_array (selected st)) with
                   | Some ks => Resolved ks
                   | None => Thrown "TypeError"
                   end |}
    else st.

(** A chunk read from standard input reaches [handleKey] while the listener
    is installed: from [stdin.on] until [removeListener] or the end of the
    process. *)
Definition deliver (options : list Opt) (st : State) (key : string) : State :=
  match status st with
  | Pending => handleKey options key st
  | _ => st
  end.

Definition feed (options : list Opt) (keys : list string) (st : State) : State :=
  fold_left (deliver options) keys st.

(** The prompt run on a sequence of input chunks. *)
Definition run (options : list Opt) (keys : list string) : State :=
  feed options keys (multiselect options).

End Multiselect.

(** ** [confirm] *)

Module Confirm.

Record State : Type := mkState {
  trace : list Effect;
  status : Status bool
}.

(** The line [confirm] opens with: the question and its dimmed hint. *)
Definition prompt_line (question : string) : string :=
  question ++ " " ++ ESC ++ "[2m(Y/n)" ++ ESC ++ "[0m ".

Definition confirm (question : string) : State :=
  {| trace := [Write (prompt_line question)]
                ++ [SetRawMode true; Resume; SetEncoding "utf8"]
                ++ [OnData];
     status := Pending |}.

Definition cleanup (result : bool) (st : State) : State :=
  {| trace := trace st ++ [RemoveListener; SetRawMode false; Pause];
     status := Resolved result |}.

Definition handleKey (key : string) (st : State) : State :=
  if String.eqb key KEY_CTRL_C then
    {| trace := trace st ++ [Exit 1]; status := Exited 1 |}
  else if orb (String.eqb key KEY_ENTER) (String.eqb (toLowerCase key) "y") then
    cleanup true
      {| trace := trace st ++ [Write (ESC ++ "[32mYes" ++ ESC ++ "[0m" ++ LF)];
         status := status st |}
  else if String.eqb (toLowerCase key) "n" then
    cleanup false
      {| trace := trace st ++ [Write (ESC ++ "[31mNo" ++ ESC ++ "[0m" ++ LF)];
         status := status st |}
  else st.

Definition deliver (st : State) (key : string) : State :=
  match status st with
  | Pending => handleKey key st
  | _ => st
  end.

Definition feed (keys : list string) (st : State) : State :=
  fold_left deliver keys st.

Definition run (question : string) (keys : list string) : State :=
  feed keys (confirm question).

End Confirm.

(** ** The transitions as the specification words them *)

(** Up: [cursor = (cursor - 1 + N) mod N]. *)
Definition Up_spec (N cursor : Z) : Z := (cursor - 1 + N) mod N.

(** Down: [cursor = (cursor + 1) mod N]. *)
Definition Down_spec (N cursor : Z) : Z := (cursor + 1) mod N.

(** The ascending-index-ordered projection of [selected] onto [Option.key]:
    the keys of the options whose index is a member, in display order. *)
Fixpoint ascending_from (i : Z) (options : list Opt) (sel : JsSet.t) : list string :=
  match options with
  | [] => []
  | opt :: rest =>
      if JsSet.has i sel then key opt :: ascending_from (i + 1) rest sel
      else ascending_from (i + 1) rest sel
  end.

Definition ascending_projection (options : list Opt) (sel : JsSet.t) : list string :=
  ascending_from 0 options sel.

(** ** Indices of the option list *)

(** [i] is an index of [options]. *)
Definition in_range (options : list Opt) (i : Z) : Prop :=
  0 <= i < Z.of_nat (List.length options).

(** What every reachable state of a prompt over a non-empty list satisfies. *)
Record Inv (options : list Opt) (st : Multiselect.State) : Prop := mkInv {
  inv_cursor : in_range options (Multiselect.cursor st);
  inv_selected : Forall (in_range options) (Multiselect.selected st);
  inv_nodup : NoDup (Multiselect.selected st)
}.

(** The key of [options[i]], where there is one. *)
Definition key_at (options : list Opt) (i : Z) : string :=
  match Multiselect.get options i with
  | Some opt => key opt
  | None => ""
  end.

(** ** Configuration and templates *)

Definition HOOKS_DIR : string := ".boru".

(** The double quote character. *)
Definition DQ : string := String "034"%char EmptyString.

(** The lines of a template literal, joined by line feeds. *)
Definition unlines (ls : list string) : string := String.concat LF ls.

Module Template.

Record t : Type := mk { desc : string; content : string }.

End Template.

(** The object [TEMPLATES]: its own properties, in insertion order. *)
Definition TEMPLATES : list (string * Template.t) :=
 [
  ("pre-commit",
   {| Template.desc := "Runs before creating a commit (tests, linting)";
      Template.content :=
        unlines
         ["#!/bin/sh";
          "        # ------------------------------------------------------------------";
          "        # PRE-COMMIT HOOK";
          "        # This script runs before the commit is created.";
          "        # If it exits with a non-zero status, the commit is aborted.";
          "        # ------------------------------------------------------------------";
          EmptyString;
          ("        echo " ++ DQ ++ "→ ⚡ Running pre-commit checks..." ++ DQ);
          EmptyString;
          "        # Example: Run linter";
          "        # npm run lint";
          EmptyString;
          "        # Example: Run tests";
          "        # npm test";
          "        "]%string |});
  ("pre-push",
   {| Template.desc := "Runs before pushing (e.g., protect main branch)";
      Template.content :=
        unlines
         ["#!/bin/sh";
          "        # ------------------------------------------------------------------";
          "        # PRE-PUSH HOOK";
          "        # This script runs before changes are pushed to the remote.";
          "        # ------------------------------------------------------------------";
          EmptyString;
          ("        echo " ++ DQ ++ "→ 🚀 Running pre-push checks..." ++ DQ);
          EmptyString;
          "        # Example: Prevent pushing directly to main";
          "        # Note: The double backslash below is required for JS string escaping.";
          "        current_branch=$(git symbolic-ref HEAD | sed -e 's,.*/\(.*\),\1,')";
          EmptyString;
          ("        if [ " ++ DQ ++ "$current_branch" ++ DQ ++ " = " ++ DQ ++ "main" ++ DQ ++ " ]; then");
          ("            echo " ++ DQ ++ "⚠️  Direct push to 'main' is restricted." ++ DQ);
          "            # Uncomment the next line to enforce the block:";
          "            # exit 1";
          "        fi";
          "        "]%string |});
  ("commit-msg",
   {| Template.desc := "Validates the commit message (Conventional Commits)";
      Template.content :=
        unlines
         ["#!/bin/sh";
          "        # ------------------------------------------------------------------";
          "        # COMMIT-MSG HOOK";
          "        # This script validates the commit message.";
          "        # The message file path is passed as the first argument ($1).";
          "        # ------------------------------------------------------------------";
          EmptyString;
          ("        echo " ++ DQ ++ "→ 📝 Checking commit message format..." ++ DQ);
          EmptyString;
          "        # Example: Use commitlint";
          ("        # npx commitlint --edit " ++ DQ ++ "$1" ++ DQ);
          "        "]%string |})
 ].

(** [TEMPLATES[key]], where [key] is an own property. *)
Fixpoint lookup_template (tbl : list (string * Template.t)) (key : string)
  : option Template.t :=
  match tbl with
  | [] => None
  | (k, t) :: rest => if String.eqb k key then Some t else lookup_template rest key
  end.

(** ** What a repaint does to the cursor row *)

(** Number of line feeds in a string. *)
Fixpoint newlines (s : string) : nat :=
  match s with
  | EmptyString => O
  | String c r => if Ascii.eqb c "010"%char then S (newlines r) else newlines r
  end.

(** Rows the cursor has gone down by after the calls of [tr], on lines that
    fit the width of the terminal: a write goes down by one row per line
    feed, [moveCursor(dx, dy)] by [dy] rows. *)
Fixpoint rows_down (tr : list Effect) : Z :=
  match tr with
  | [] => 0
  | Write s :: rest => Z.of_nat (newlines s) + rows_down rest
  | MoveCursor _ dy :: rest => dy + rows_down rest
  | _ :: rest => rows_down rest
  end.

(** ** [main] *)

Module Main.

(** What a name inside the hooks directory is bound to. *)
Inductive Entry : Type :=
| File (content : string) (executable : bool)
| Directory.

(** What [path.join(process.cwd(), HOOKS_DIR)] is on disk; the entries of a
    directory are looked up by file name.  The names [main] joins onto the
    directory are keys of [TEMPLATES], plain file names. *)
Inductive HooksDir : Type :=
| Missing
| NotADirectory
| Dir (entries : string -> option Entry).

(** How the commands and calls that may fail turn out. *)
Record Env : Type := mkEnv {
  in_work_tree : bool;          (* git rev-parse --is-inside-work-tree succeeds *)
  chmod_ok : string -> bool;    (* fs.chmodSync succeeds on that file *)
  git_config_ok : bool;         (* git config core.hooksPath .boru succeeds *)
  git_add_ok : bool             (* git add .boru succeeds *)
}.

(** The part of the repository [main] may change. *)
Record World : Type := mkWorld {
  hooks_dir : HooksDir;
  hooksPath : option string;    (* the value of core.hooksPath *)
  staged : bool                 (* .boru was added to the index *)
}.

(** What the process does that can be observed from outside, in order. *)
Inductive Output : Type :=
| ConsoleClear                  (* console.clear() *)
| ConsoleLog (s : string)       (* console.log(s) *)
| ConsoleError (s : string)     (* console.error(s) *)
| ExecSync (cmd : string)       (* execSync(cmd) *)
| Term (e : Effect).            (* a call made by one of the prompts *)

Record State : Type := mkState {
  out : list Output;
  world : World;
  status : Status unit
}.

(** [fs.existsSync(path.join(targetDir, key))] *)
Definition existsSync (dir : HooksDir) (key : string) : bool :=
  match dir with
  | Dir entries => match entries key with Some _ => true | None => false end
  | _ => false
  end.

Definition write (entries : string -> option Entry) (key : string) (e : Entry)
  : string -> option Entry :=
  fun name => if String.eqb name key then Some e else entries name.

(** The callback of [selectedKeys.forEach]: the new directory and the line
    logged, or the error thrown.  For a key that [TEMPLATES] does not have,
    reading [content] throws before anything is written; writing under a
    path that is no directory throws. *)
Definition create_hook (env : Env) (key : string) (dir : HooksDir)
  : string + (HooksDir * Output) :=
  if negb (existsSync dir key) then
    match lookup_template TEMPLATES key with
    | None => inl "TypeError"
    | Some t =>
        match dir with
        | Dir entries =>
            let file := File (Template.content t) false in
            let file := if chmod_ok env key then File (Template.content t) true
                        else file in
            inr (Dir (write entries key file),
                 ConsoleLog ("  " ++ ESC ++ "[32m✔" ++ ESC ++ "[0m Created "
                               ++ ESC ++ "[1m" ++ key ++ ESC ++ "[0m"))
        | NotADirectory => inl "ENOTDIR"
        | Missing => inl "ENOENT"
        end
    end
  else
    inr (dir,
         ConsoleLog ("  " ++ ESC ++ "[33m•" ++ ESC ++ "[0m Skipped "
                       ++ ESC ++ "[1m" ++ key ++ ESC ++ "[0m (already exists)")).

(** [selectedKeys.forEach(...)]: stops at the first callback that throws. *)
Fixpoint create_hooks (env : Env) (keys : list string) (dir : HooksDir)
    (out : list Output) : HooksDir * list Output * option string :=
  match keys with
  | [] => (dir, out, None)
  | key :: rest =>
      match create_hook env key dir with
      | inl err => (dir, out, Some err)
      | inr (dir', line) => create_hooks env rest dir' (out ++ [line])
      end
  end.

(** What a name is bound to under the hooks directory, if anything. *)
Definition entry (dir : HooksDir) (name : string) : option Entry :=
  match dir with
  | Dir entries => entries name
  | _ => None
  end.

(** The file [create_hook] leaves under a fresh name [key]: the content of
    its template, executable when [chmodSync] went through. *)
Definition hook_file (env : Env) (key : string) : option Entry :=
  match lookup_template TEMPLATES key with
  | Some t => Some (File (Template.content t) (chmod_ok env key))
  | None => None
  end.

(** The calls of the prompts among what the process did. *)
Fixpoint term_effects (out : list Output) : list Effect :=
  match out with
  | [] => []
  | Term e :: rest => e :: term_effects rest
  | _ :: rest => term_effects rest
  end.

(** The commands run through [execSync] among what the process did. *)
Fixpoint commands (out : list Output) : list string :=
  match out with
  | [] => []
  | ExecSync cmd :: rest => cmd :: commands rest
  | _ :: rest => commands rest
  end.

(** The options passed to the multi-select prompt. *)
Definition choices : list Opt :=
  map (fun kt => {| key := fst kt; name := fst kt; desc := Template.desc (snd kt) |})
      TEMPLATES.

Definition question : string :=
  ESC ++ "[36m?" ++ ESC ++ "[0m Do you want to stage these files to Git?".

(** From the answer of the confirm prompt to the end of [main]. *)
Definition after_confirm (env : Env) (w : World) (out : list Output)
    (shouldStage : bool) : State :=
  let st :=
    if shouldStage then
      if git_add_ok env then
        (out ++ [ExecSync ("git add " ++ HOOKS_DIR);
                 ConsoleLog ("  " ++ ESC ++ "[32m✔" ++ ESC
                               ++ "[0m Files added to staging area.")],
         {| hooks_dir := hooks_dir w; hooksPath := hooksPath w; staged := true |})
      else
        (out ++ [ExecSync ("git add " ++ HOOKS_DIR);
                 ConsoleLog ("  " ++ ESC ++ "[31m❌" ++ ESC ++ "[0m Failed to git add.")],
         w)
    else
      (out ++ [ConsoleLog ("  " ++ ESC ++ "[2m•" ++ ESC ++ "[0m Skipping git add.")], w) in
  {| out := fst st
            ++ [ConsoleLog (LF ++ ESC ++ "[32mDone! Edit your files inside /"
                              ++ HOOKS_DIR ++ ESC ++ "[0m")];
     world := snd st;
     status := Resolved tt |}.

(** From the value of the multi-select prompt to the end of [main];
    [keys] are the chunks that reach the listener of the confirm prompt. *)
Definition after_select (env : Env) (w : World) (out : list Output)
    (selectedKeys : list string) (keys : list string) : State :=
  let out := out ++ [ConsoleLog LF] in
  if Nat.eqb (List.length selectedKeys) 0 then
    {| out := out ++ [ConsoleLog "⚠ No hooks selected. Exiting."];
       world := w;
       status := Exited 0 |}
  else
    let dir := if negb (match hooks_dir w with Missing => false | _ => true end)
               then Dir (fun _ => None) else hooks_dir w in
    match create_hooks env selectedKeys dir out with
    | (dir, out, Some err) =>
        {| out := out;
           world := {| hooks_dir := dir; hooksPath := hooksPath w; staged := staged w |};
           status := Thrown err |}
    | (dir, out, None) =>
        let w := {| hooks_dir := dir; hooksPath := hooksPath w; staged := staged w |} in
        let cfg :=
          if git_config_ok env then
            (out ++ [ExecSync ("git config core.hooksPath " ++ HOOKS_DIR);
                     ConsoleLog (LF ++ ESC ++ "[2m✔ Git configured to use "
                                   ++ HOOKS_DIR ++ ESC ++ "[0m")],
             {| hooks_dir := hooks_dir w; hooksPath := Some HOOKS_DIR;
                staged := staged w |})
          else
            (out ++ [ExecSync ("git config core.hooksPath " ++ HOOKS_DIR);
                     ConsoleError "❌ Failed to configure git."],
             w) in
        let out := fst cfg ++ [ConsoleLog ""] in
        let w := snd cfg in
        let prompt := Confirm.run question keys in
        let out := out ++ map Term (Confirm.trace prompt) in
        match Confirm.status prompt with
        | Resolved shouldStage => after_confirm env w out shouldStage
        | Pending => {| out := out; world := w; status := Pending |}
        | Exited code => {| out := out; world := w; status := Exited code |}
        | Thrown err => {| out := out; world := w; status := Thrown err |}
        end
    end.

(** [main()], with the chunks that reach the listener of the multi-select
    prompt and those that reach the listener of the confirm prompt. *)
Definition main (env : Env) (w : World) (keys1 keys2 : list string) : State :=
  let out :=
    [ConsoleClear;
     ConsoleLog (ESC ++ "[1m⚡ Setup Git Hooks" ++ ESC ++ "[0m " ++ ESC
                   ++ "[2m(Space to select, Enter to confirm)" ++ ESC ++ "[0m" ++ LF)] in
  let out := out ++ [ExecSync "git rev-parse --is-inside-work-tree"] in
  if negb (in_work_tree env) then
    {| out := out ++ [ConsoleError "❌ Error: Not inside a Git repository."];
       world := w;
       status := Exited 1 |}
  else
    let prompt := Multiselect.run choices keys1 in
    let out := out ++ map Term (Multiselect.trace prompt) in
    match Multiselect.status prompt with
    | Resolved selectedKeys => after_select env w out selectedKeys keys2
    | Pending => {| out := out; world := w; status := Pending |}
    | Exited code => {| out := out; world := w; status := Exited code |}
    | Thrown err => {| out := out; world := w; status := Thrown err |}
    end.

End Main.

(** * Properties *)

(** ** The key chunks *)

Lemma key_cases (k : string) :
  k = KEY_CTRL_C \/ k = KEY_UP \/ k = KEY_DOWN \/ k = KEY_SPACE \/ k = KEY_ENTER \/
  (k <> KEY_CTRL_C /\ k <> KEY_UP /\ k <> KEY_DOWN /\ k <> KEY_SPACE /\ k <> KEY_ENTER).
Proof.
  destruct (String.eqb_spec k KEY_CTRL_C); [now left|].
  destruct (String.eqb_spec k KEY_UP); [now right; left|].
  destruct (String.eqb_spec k KEY_DOWN); [now right; right; left|].
  destruct (String.eqb_spec k KEY_SPACE); [now right; right; right; left|].
  destruct (String.eqb_spec k KEY_ENTER); [now right; right; right; right; left|].
  now repeat right.
Qed.

(** ** Sets in insertion order *)

Section JsSetFacts.
Import JsSet.

Lemma has_true_iff (x : Z) (s : t) : has x s = true <-> In x s.
Proof.
  unfold has. rewrite existsb_exists. split.
  - intros [y [Hy Heq]]. apply Z.eqb_eq in Heq. now subst.
  - intros H. exists x. split; [assumption | apply Z.eqb_refl].
Qed.

Lemma has_false_iff (x : Z) (s : t) : has x s = false <-> ~ In x s.
Proof.
  rewrite <- has_true_iff. destruct (has x s); split; congruence.
Qed.

Lemma in_delete (x y : Z) (s : t) : In y (delete x s) <-> In y s /\ y <> x.
Proof.
  unfold delete. rewrite filter_In, negb_true_iff, Z.eqb_neq. tauto.
Qed.

Lemma in_add (x y : Z) (s : t) : In y (add x s) <-> In y s \/ y = x.
Proof.
  unfold add. destruct (has x s) eqn:Hx.
  - apply has_true_iff in Hx. split; [tauto|]. intros [H | ->]; assumption.
  - rewrite in_app_iff. simpl. intuition congruence.
Qed.

Lemma has_delete (x y : Z) (s : t) :
  has y (delete x s) = has y s && negb (Z.eqb y x).
Proof.
  apply eq_true_iff_eq.
  rewrite andb_true_iff, negb_true_iff, Z.eqb_neq, !has_true_iff.
  apply in_delete.
Qed.

Lemma has_add (x y : Z) (s : t) : has y (add x s) = has y s || Z.eqb y x.
Proof.
  apply eq_true_iff_eq.
  rewrite orb_true_iff, Z.eqb_eq, !has_true_iff.
  apply in_add.
Qed.

Lemma NoDup_delete (x : Z) (s : t) : NoDup s -> NoDup (delete x s).
Proof. apply NoDup_filter. Qed.

Lemma NoDup_add (x : Z) (s : t) : NoDup s -> NoDup (add x s).
Proof.
  intros Hs. unfold add. destruct (has x s) eqn:Hx; [assumption|].
  apply has_false_iff in Hx.
  apply NoDup_app; [assumption | repeat constructor; simpl; tauto |].
  intros y Hy [<- | []]. exact (Hx Hy).
Qed.

End JsSetFacts.

(** ** The multi-select state machine *)

Section MultiselectFacts.
Import JsSet Multiselect.

(** *** [handleKey], branch by branch *)

Lemma handleKey_ctrl_c (options : list Opt) (st : State) :
  handleKey options KEY_CTRL_C st =
  {| cursor := cursor st; selected := selected st;
     trace := trace st ++ [Write showCursor; Exit 1];
     status := Exited 1 |}.
Proof. reflexivity. Qed.

Lemma handleKey_up (options : list Opt) (st : State) :
  handleKey options KEY_UP st =
  {| cursor := cursor_up options (cursor st); selected := selected st;
     trace := trace st ++ render options (cursor_up options (cursor st)) (selected st);
     status := status st |}.
Proof. reflexivity. Qed.

Lemma handleKey_down (options : list Opt) (st : State) :
  handleKey options KEY_DOWN st =
  {| cursor := cursor_down options (cursor st); selected := selected st;
     trace := trace st ++ render options (cursor_down options (cursor st)) (selected st);
     status := status st |}.
Proof. reflexivity. Qed.

Lemma handleKey_space (options : list Opt) (st : State) :
  handleKey options KEY_SPACE st =
  {| cursor := cursor st; selected := toggle (cursor st) (selected st);
     trace := trace st
                ++ render options (cursor st) (toggle (cursor st) (selected st));
     status := status st |}.
Proof. reflexivity. Qed.

Lemma handleKey_enter (options : list Opt) (st : State) :
  handleKey options KEY_ENTER st =
  {| cursor := cursor st; selected := selected st;
     trace := trace st ++ [RemoveListener; SetRawMode false; Pause; Write showCursor];
     status := match map_keys options (to_array (selected st)) with
               | Some ks => Resolved ks
               | None => Thrown "TypeError"
               end |}.
Proof. reflexivity. Qed.

Lemma handleKey_other (options : list Opt) (k : string) (st : State) :
  k <> KEY_CTRL_C -> k <> KEY_UP -> k <> KEY_DOWN -> k <> KEY_SPACE -> k <> KEY_ENTER ->
  handleKey options k st = st.
Proof.
  intros H1 H2 H3 H4 H5. unfold handleKey.
  apply String.eqb_neq in H1, H2, H3, H4, H5.
  now rewrite H1, H2, H3, H4, H5.
Qed.

Lemma feed_app (options : list Opt) (ks1 ks2 : list string) (st : State) :
  feed options (ks1 ++ ks2) st = feed options ks2 (feed options ks1 st).
Proof. unfold feed. apply fold_left_app. Qed.

Lemma feed_cons (options : list Opt) (k : string) (ks : list string) (st : State) :
  feed options (k :: ks) st = feed options ks (deliver options st k).
Proof. reflexivity. Qed.

Lemma deliver_pending (options : list Opt) (k : string) (st : State) :
  status st = Pending -> deliver options st k = handleKey options k st.
Proof. intros H. unfold deliver. now rewrite H. Qed.

(** Once the promise is settled or the process gone, input changes nothing. *)
Lemma feed_settled (options : list Opt) (ks : list string) (st : State) :
  status st <> Pending -> feed options ks st = st.
Proof.
  intros H. induction ks as [|k ks IH]; [reflexivity|].
  rewrite feed_cons. unfold deliver.
  destruct (status st) eqn:E; try assumption. congruence.
Qed.

(** *** The cursor on the ring *)

Section Ring.
Variable options : list Opt.
Let N : Z := Z.of_nat (List.length options).
Hypothesis HN : 1 <= N.

Lemma cursor_up_range (c : Z) : 0 <= c < N -> 0 <= cursor_up options c < N.
Proof.
  intros Hc. unfold cursor_up. fold N.
  destruct (Z.gtb_spec c 0); lia.
Qed.

Lemma cursor_down_range (c : Z) : 0 <= c < N -> 0 <= cursor_down options c < N.
Proof.
  intros Hc. unfold cursor_down. fold N.
  destruct (Z.ltb_spec c (N - 1)); lia.
Qed.

Lemma cursor_up_mod (c : Z) : 0 <= c < N -> cursor_up options c = Up_spec N c.
Proof.
  intros Hc. unfold cursor_up, Up_spec. fold N.
  destruct (Z.gtb_spec c 0).
  - replace (c - 1 + N) with (c - 1 + 1 * N) by lia.
    rewrite Z.mod_add by lia. rewrite Z.mod_small; lia.
  - replace c with 0 by lia. rewrite Z.mod_small; lia.
Qed.

Lemma cursor_down_mod (c : Z) : 0 <= c < N -> cursor_down options c = Down_spec N c.
Proof.
  intros Hc. unfold cursor_down, Down_spec. fold N.
  destruct (Z.ltb_spec c (N - 1)).
  - rewrite Z.mod_small; lia.
  - replace (c + 1) with N by lia. now rewrite Z.mod_same by lia.
Qed.

(** [k] moves down from [c] land on [(c + k) mod N]. *)
Lemma iter_cursor_down (k : nat) (c : Z) :
  0 <= c < N ->
  Nat.iter k (cursor_down options) c = (c + Z.of_nat k) mod N.
Proof.
  intros Hc. induction k as [|k IH].
  - simpl. rewrite Z.add_0_r, Z.mod_small; lia.
  - rewrite Nat.iter_succ, IH.
    rewrite cursor_down_mod by (apply Z.mod_pos_bound; lia).
    unfold Down_spec. rewrite Zplus_mod_idemp_l. f_equal. lia.
Qed.

Lemma iter_cursor_down_full (c : Z) :
  0 <= c < N -> Nat.iter (List.length options) (cursor_down options) c = c.
Proof.
  intros Hc. rewrite iter_cursor_down by assumption. fold N.
  replace (c + N) with (c + 1 * N) by lia.
  rewrite Z.mod_add by lia. apply Z.mod_small. lia.
Qed.

End Ring.

Lemma iter_handleKey_down (options : list Opt) (k : nat) (st : State) :
  cursor (Nat.iter k (handleKey options KEY_DOWN) st)
  = Nat.iter k (cursor_down options) (cursor st)
  /\ selected (Nat.iter k (handleKey options KEY_DOWN) st) = selected st
  /\ status (Nat.iter k (handleKey options KEY_DOWN) st) = status st.
Proof.
  induction k as [|k [IHc [IHs IHp]]]; [now simpl|].
  rewrite !Nat.iter_succ, handleKey_down. simpl. now rewrite IHc, IHs, IHp.
Qed.

Lemma feed_repeat_down (options : list Opt) (k : nat) (st : State) :
  status st = Pending ->
  feed options (repeat KEY_DOWN k) st = Nat.iter k (handleKey options KEY_DOWN) st.
Proof.
  intros Hp. induction k as [|k IH]; [reflexivity|].
  replace (repeat KEY_DOWN (S k)) with (repeat KEY_DOWN k ++ [KEY_DOWN])
    by (symmetry; apply (repeat_cons k KEY_DOWN)).
  rewrite feed_app, IH, Nat.iter_succ. simpl.
  apply deliver_pending.
  destruct (iter_handleKey_down options k st) as [_ [_ ->]]. exact Hp.
Qed.

End MultiselectFacts.

(** ** Indices stay inside the option list *)

Section MultiselectInv.
Import JsSet Multiselect.

Lemma nonempty_length (options : list Opt) :
  options <> [] <-> 1 <= Z.of_nat (List.length options).
Proof.
  destruct options; simpl; split; try congruence; try lia.
Qed.

Lemma toggle_in (c i : Z) (s : JsSet.t) : In i (toggle c s) -> In i s \/ i = c.
Proof.
  unfold toggle. destruct (has c s).
  - rewrite in_delete. tauto.
  - rewrite in_add. tauto.
Qed.

Lemma toggle_NoDup (c : Z) (s : JsSet.t) : NoDup s -> NoDup (toggle c s).
Proof.
  unfold toggle. destruct (has c s); [apply NoDup_delete | apply NoDup_add].
Qed.

Lemma multiselect_inv (options : list Opt) :
  options <> [] -> Inv options (multiselect options).
Proof.
  intros H. apply nonempty_length in H.
  split; simpl; unfold in_range.
  - lia.
  - repeat constructor; lia.
  - repeat constructor. simpl. tauto.
Qed.

Lemma handleKey_inv (options : list Opt) (k : string) (st : State) :
  options <> [] -> Inv options st -> Inv options (handleKey options k st).
Proof.
  intros HN [Hc Hs Hd]. apply nonempty_length in HN.
  destruct (key_cases k) as [-> | [-> | [-> | [-> | [-> | (H1 & H2 & H3 & H4 & H5)]]]]].
  - rewrite handleKey_ctrl_c. now split.
  - rewrite handleKey_up. split; simpl; try assumption.
    now apply cursor_up_range.
  - rewrite handleKey_down. split; simpl; try assumption.
    now apply cursor_down_range.
  - rewrite handleKey_space. split; simpl; try assumption.
    + apply Forall_forall. intros i Hi.
      destruct (toggle_in _ _ _ Hi) as [Hin | ->]; [|assumption].
      rewrite Forall_forall in Hs. now apply Hs.
    + now apply toggle_NoDup.
  - rewrite handleKey_enter. now split.
  - rewrite handleKey_other by assumption. now split.
Qed.

Lemma feed_inv (options : list Opt) (ks : list string) (st : State) :
  options <> [] -> Inv options st -> Inv options (feed options ks st).
Proof.
  intros HN. revert st. induction ks as [|k ks IH]; intros st Hinv; [assumption|].
  rewrite feed_cons. apply IH. unfold deliver.
  destruct (status st); try assumption. now apply handleKey_inv.
Qed.

Lemma run_inv (options : list Opt) (ks : list string) :
  options <> [] -> Inv options (run options ks).
Proof. intros HN. apply feed_inv, multiselect_inv; assumption. Qed.

(** Inside the array, [options[i]] is an option. *)
Lemma get_in_range (options : list Opt) (i : Z) :
  in_range options i -> exists opt, get options i = Some opt.
Proof.
  intros [H0 HN]. unfold get.
  destruct (Z.ltb_spec i 0); [lia|].
  destruct (nth_error options (Z.to_nat i)) eqn:E; [now eexists|].
  apply nth_error_None in E. lia.
Qed.

Lemma map_keys_in_range (options : list Opt) (xs : list Z) :
  Forall (in_range options) xs ->
  map_keys options xs = Some (map (key_at options) xs).
Proof.
  induction 1 as [|i xs Hi _ IH]; [reflexivity|].
  simpl. unfold key_at at 1.
  destruct (get_in_range _ _ Hi) as [opt ->]. now rewrite IH.
Qed.

Lemma map_keys_defined (options : list Opt) (xs : list Z) :
  map_keys options xs <> None -> Forall (in_range options) xs.
Proof.
  induction xs as [|i xs IH]; [constructor|].
  simpl. unfold get.
  destruct (Z.ltb_spec i 0); [congruence|].
  destruct (nth_error options (Z.to_nat i)) eqn:E; [|congruence].
  destruct (map_keys options xs); [|congruence].
  intros _. constructor.
  - assert (Hlt : (Z.to_nat i < List.length options)%nat)
      by (apply nth_error_Some; congruence).
    unfold in_range. lia.
  - apply IH. congruence.
Qed.

End MultiselectInv.

Section MultiselectToggle.
Import JsSet Multiselect.

(** Membership after one toggle at [c]. *)
Lemma has_toggle (c i : Z) (s : JsSet.t) :
  has i (toggle c s) = if Z.eqb i c then negb (has c s) else has i s.
Proof.
  unfold toggle. destruct (has c s) eqn:Hc.
  - rewrite has_delete. destruct (Z.eqb_spec i c) as [-> | Hne]; simpl.
    + apply andb_false_r.
    + apply andb_true_r.
  - rewrite has_add. destruct (Z.eqb_spec i c) as [-> | Hne]; simpl.
    + apply orb_true_r.
    + apply orb_false_r.
Qed.

Lemma has_toggle_twice (c i : Z) (s : JsSet.t) :
  has i (toggle c (toggle c s)) = has i s.
Proof.
  rewrite !has_toggle, Z.eqb_refl.
  destruct (Z.eqb_spec i c) as [-> | Hne]; [apply negb_involutive | reflexivity].
Qed.

(** A reachable prompt over a non-empty list never throws. *)
Lemma feed_not_thrown (options : list Opt) (ks : list string) (st : State) :
  options <> [] -> Inv options st ->
  (forall err, status st <> Thrown err) ->
  forall err, status (feed options ks st) <> Thrown err.
Proof.
  intros HN. revert st. induction ks as [|k ks IH]; intros st Hinv Hst; [assumption|].
  rewrite feed_cons. unfold deliver.
  destruct (status st) eqn:Est; try (apply IH; [assumption | now rewrite Est]).
  apply IH; [now apply handleKey_inv|].
  destruct (key_cases k) as [-> | [-> | [-> | [-> | [-> | (H1 & H2 & H3 & H4 & H5)]]]]].
  - rewrite handleKey_ctrl_c. simpl. congruence.
  - rewrite handleKey_up. simpl. rewrite Est. congruence.
  - rewrite handleKey_down. simpl. rewrite Est. congruence.
  - rewrite handleKey_space. simpl. rewrite Est. congruence.
  - rewrite handleKey_enter. simpl. unfold to_array.
    rewrite (map_keys_in_range _ _ (inv_selected _ _ Hinv)). congruence.
  - rewrite handleKey_other by assumption. rewrite Est. congruence.
Qed.

End MultiselectToggle.

(** ** The claims on the cursor and on the selection *)

Section MultiselectClaims.
Import JsSet Multiselect.

(** C5. With at least one option and a cursor that starts inside the list, any
    finite sequence of Up and Down keys leaves the cursor inside the list:
    [0 <= cursor < N].  (Every one of those keys is handled: the prompt is
    still pending afterwards.) *)
Theorem C5_cursor_stays_in_range (options : list Opt) (keys : list string) (st : State) :
  1 <= Z.of_nat (List.length options) ->
  0 <= cursor st < Z.of_nat (List.length options) ->
  status st = Pending ->
  Forall (fun k => k = KEY_UP \/ k = KEY_DOWN) keys ->
  0 <= cursor (feed options keys st) < Z.of_nat (List.length options)
  /\ status (feed options keys st) = Pending.
Proof.
  intros HN Hc Hp Hks. revert st Hc Hp.
  induction Hks as [|k ks Hk _ IH]; intros st Hc Hp; [now split|].
  rewrite feed_cons, deliver_pending by assumption.
  destruct Hk as [-> | ->].
  - rewrite handleKey_up. apply IH; simpl; [|assumption].
    now apply cursor_up_range.
  - rewrite handleKey_down. apply IH; simpl; [|assumption].
    now apply cursor_down_range.
Qed.

Lemma C5_cursor_stays_in_range_witness :
  let options := [mkOpt "pre-commit" "pre-commit" "a"; mkOpt "pre-push" "pre-push" "b"] in
  0 <= cursor (feed options [KEY_UP; KEY_UP; KEY_DOWN; KEY_UP] (multiselect options)) < 2
  /\ status (feed options [KEY_UP; KEY_UP; KEY_DOWN; KEY_UP] (multiselect options)) = Pending.
Proof.
  intros options.
  apply (C5_cursor_stays_in_range options [KEY_UP; KEY_UP; KEY_DOWN; KEY_UP]
           (multiselect options)).
  - simpl. lia.
  - simpl. lia.
  - reflexivity.
  - repeat (apply Forall_cons; [first [left; reflexivity | right; reflexivity]|]).
    apply Forall_nil.
Defined.

(** C6. For [N >= 1] options and a cursor in [[0, N)], the conditional
    wrap-around of the Up branch equals [(cursor - 1 + N) mod N] and that of
    the Down branch equals [(cursor + 1) mod N]. *)
Theorem C6_wraparound_is_modular (options : list Opt) (st : State) :
  1 <= Z.of_nat (List.length options) ->
  0 <= cursor st < Z.of_nat (List.length options) ->
  cursor (handleKey options KEY_UP st)
  = Up_spec (Z.of_nat (List.length options)) (cursor st)
  /\ cursor (handleKey options KEY_DOWN st)
     = Down_spec (Z.of_nat (List.length options)) (cursor st).
Proof.
  intros HN Hc. rewrite handleKey_up, handleKey_down. simpl. split.
  - now apply cursor_up_mod.
  - now apply cursor_down_mod.
Qed.

Lemma C6_wraparound_is_modular_witness :
  let options := [mkOpt "pre-commit" "pre-commit" "a"; mkOpt "pre-push" "pre-push" "b";
                  mkOpt "commit-msg" "commit-msg" "c"] in
  cursor (handleKey options KEY_UP (multiselect options)) = Up_spec 3 0
  /\ cursor (handleKey options KEY_DOWN (multiselect options)) = Down_spec 3 0.
Proof.
  intros options.
  apply (C6_wraparound_is_modular options (multiselect options)); simpl; lia.
Defined.

(** C7. With [N >= 1] options and a cursor in [[0, N)], [N] Down keys in a
    row bring the cursor back where it started. *)
Theorem C7_down_full_circle (options : list Opt) (st : State) :
  1 <= Z.of_nat (List.length options) ->
  0 <= cursor st < Z.of_nat (List.length options) ->
  status st = Pending ->
  cursor (feed options (repeat KEY_DOWN (List.length options)) st) = cursor st
  /\ cursor (Nat.iter (List.length options) (handleKey options KEY_DOWN) st) = cursor st.
Proof.
  intros HN Hc Hp. rewrite feed_repeat_down by assumption.
  destruct (iter_handleKey_down options (List.length options) st) as [-> _].
  rewrite iter_cursor_down_full by assumption. now split.
Qed.

Lemma C7_down_full_circle_witness :
  let options := [mkOpt "pre-commit" "pre-commit" "a"; mkOpt "pre-push" "pre-push" "b";
                  mkOpt "commit-msg" "commit-msg" "c"] in
  let st := feed options [KEY_DOWN] (multiselect options) in
  cursor st = 1
  /\ cursor (feed options (repeat KEY_DOWN 3) st) = cursor st
  /\ cursor (Nat.iter 3 (handleKey options KEY_DOWN) st) = cursor st.
Proof.
  intros options st. split; [reflexivity|].
  apply (C7_down_full_circle options st).
  - simpl. lia.
  - change (0 <= 1 < 3). lia.
  - reflexivity.
Defined.

(** C8. Space toggles the membership of the cursor index in [selected]: one
    Space adds it if it is absent and removes it if it is present, and
    touches no other index; two Spaces at the same cursor leave the set with
    the members it had (as a list in insertion order, a rearrangement of the
    one it was). *)
Theorem C8_space_involution (options : list Opt) (st : State) :
  let st1 := handleKey options KEY_SPACE st in
  let st2 := handleKey options KEY_SPACE st1 in
  cursor st1 = cursor st
  /\ has (cursor st) (selected st1) = negb (has (cursor st) (selected st))
  /\ (forall i, i <> cursor st -> has i (selected st1) = has i (selected st))
  /\ (forall i, has i (selected st2) = has i (selected st))
  /\ (NoDup (selected st) -> Permutation (selected st2) (selected st)).
Proof.
  intros st1 st2. subst st1 st2. rewrite !handleKey_space. simpl.
  split; [reflexivity|]. split; [|split; [|split]].
  - now rewrite has_toggle, Z.eqb_refl.
  - intros i Hi. rewrite has_toggle. apply Z.eqb_neq in Hi. now rewrite Hi.
  - intros i. apply has_toggle_twice.
  - intros Hd. apply NoDup_Permutation; [now do 2 apply toggle_NoDup | assumption |].
    intros i. now rewrite <- !has_true_iff, has_toggle_twice.
Qed.

(** C10. With at least one option, after any sequence of input chunks every
    member of [selected] is an index of the option list: the prompt starts
    from the set holding 0 alone, and the lookup [options[i].key] made on
    Enter is defined for every member, so the handler never throws. *)
Theorem C10_selected_indices_in_range (options : list Opt) (keys : list string) :
  options <> [] ->
  selected (multiselect options) = [0]
  /\ Forall (fun i => 0 <= i < Z.of_nat (List.length options))
       (selected (run options keys))
  /\ (forall i, In i (selected (run options keys)) ->
        exists opt, get options i = Some opt)
  /\ (exists ks, map_keys options (to_array (selected (run options keys))) = Some ks)
  /\ (forall err, status (run options keys) <> Thrown err).
Proof.
  intros HN. pose proof (run_inv options keys HN) as Hinv.
  split; [reflexivity|]. split; [exact (inv_selected _ _ Hinv)|]. split; [|split].
  - intros i Hi. apply get_in_range.
    pose proof (inv_selected _ _ Hinv) as Hs. rewrite Forall_forall in Hs. now apply Hs.
  - eexists. apply map_keys_in_range. exact (inv_selected _ _ Hinv).
  - apply feed_not_thrown; [assumption | now apply multiselect_inv |].
    simpl. congruence.
Qed.

Lemma C10_selected_indices_in_range_witness :
  let options := [mkOpt "pre-commit" "pre-commit" "a"; mkOpt "pre-push" "pre-push" "b"] in
  let keys := [KEY_DOWN; KEY_SPACE; KEY_UP; KEY_SPACE; KEY_UP; "q"; KEY_ENTER] in
  selected (multiselect options) = [0]
  /\ Forall (fun i => 0 <= i < Z.of_nat (List.length options))
       (selected (run options keys))
  /\ (forall i, In i (selected (run options keys)) ->
        exists opt, get options i = Some opt)
  /\ (exists ks, map_keys options (to_array (selected (run options keys))) = Some ks)
  /\ (forall err, status (run options keys) <> Thrown err).
Proof.
  intros options keys.
  apply (C10_selected_indices_in_range options keys). discriminate.
Defined.

End MultiselectClaims.

(** ** The confirm state machine *)

Section ConfirmFacts.
Import Confirm.

Lemma lower_ascii_y (c : ascii) :
  lower_ascii c = "y"%char -> c = "y"%char \/ c = "Y"%char.
Proof.
  destruct c as [b0 b1 b2 b3 b4 b5 b6 b7].
  destruct b0, b1, b2, b3, b4, b5, b6, b7; cbv; intros H;
    first [discriminate H | now left | now right].
Qed.

Lemma lower_ascii_n (c : ascii) :
  lower_ascii c = "n"%char -> c = "n"%char \/ c = "N"%char.
Proof.
  destruct c as [b0 b1 b2 b3 b4 b5 b6 b7].
  destruct b0, b1, b2, b3, b4, b5, b6, b7; cbv; intros H;
    first [discriminate H | now left | now right].
Qed.

Lemma toLowerCase_empty (s : string) : toLowerCase s = "" -> s = "".
Proof. destruct s; simpl; [reflexivity | discriminate]. Qed.

(** [key.toLowerCase() === "y"] holds of "y" and "Y" alone. *)
Lemma toLowerCase_y (k : string) : toLowerCase k = "y" <-> k = "y" \/ k = "Y".
Proof.
  split.
  - destruct k as [|c r]; simpl; [discriminate|].
    intros H. injection H as Hc Hr.
    apply toLowerCase_empty in Hr. subst r.
    destruct (lower_ascii_y c Hc) as [-> | ->]; auto.
  - intros [-> | ->]; reflexivity.
Qed.

(** [key.toLowerCase() === "n"] holds of "n" and "N" alone. *)
Lemma toLowerCase_n (k : string) : toLowerCase k = "n" <-> k = "n" \/ k = "N".
Proof.
  split.
  - destruct k as [|c r]; simpl; [discriminate|].
    intros H. injection H as Hc Hr.
    apply toLowerCase_empty in Hr. subst r.
    destruct (lower_ascii_n c Hc) as [-> | ->]; auto.
  - intros [-> | ->]; reflexivity.
Qed.

Lemma confirm_handleKey_ctrl_c (st : State) :
  handleKey KEY_CTRL_C st = {| trace := trace st ++ [Exit 1]; status := Exited 1 |}.
Proof. reflexivity. Qed.

Lemma confirm_handleKey_yes (k : string) (st : State) :
  k = KEY_ENTER \/ k = "y" \/ k = "Y" ->
  handleKey k st =
  {| trace := trace st ++ [Write (ESC ++ "[32mYes" ++ ESC ++ "[0m" ++ LF)]
                ++ [RemoveListener; SetRawMode false; Pause];
     status := Resolved true |}.
Proof.
  intros [-> | [-> | ->]]; unfold handleKey, cleanup; simpl;
    now rewrite <- app_assoc.
Qed.

Lemma confirm_handleKey_no (k : string) (st : State) :
  k = "n" \/ k = "N" ->
  handleKey k st =
  {| trace := trace st ++ [Write (ESC ++ "[31mNo" ++ ESC ++ "[0m" ++ LF)]
                ++ [RemoveListener; SetRawMode false; Pause];
     status := Resolved false |}.
Proof.
  intros [-> | ->]; unfold handleKey, cleanup; simpl; now rewrite <- app_assoc.
Qed.

Lemma confirm_handleKey_other (k : string) (st : State) :
  k <> KEY_CTRL_C -> k <> KEY_ENTER ->
  k <> "y" -> k <> "Y" -> k <> "n" -> k <> "N" ->
  handleKey k st = st.
Proof.
  intros Hc He Hy HY Hn HN. unfold handleKey.
  apply String.eqb_neq in Hc, He. rewrite Hc, He. simpl.
  destruct (String.eqb_spec (toLowerCase k) "y") as [E | _].
  { apply toLowerCase_y in E. tauto. }
  destruct (String.eqb_spec (toLowerCase k) "n") as [E | _].
  { apply toLowerCase_n in E. tauto. }
  reflexivity.
Qed.

Lemma confirm_key_cases (k : string) :
  k = KEY_CTRL_C \/ (k = KEY_ENTER \/ k = "y" \/ k = "Y") \/ (k = "n" \/ k = "N") \/
  (k <> KEY_CTRL_C /\ k <> KEY_ENTER /\ k <> "y" /\ k <> "Y" /\ k <> "n" /\ k <> "N").
Proof.
  destruct (String.eqb_spec k KEY_CTRL_C); [now left|].
  destruct (String.eqb_spec k KEY_ENTER); [now right; left; left|].
  destruct (String.eqb_spec k "y"); [now right; left; right; left|].
  destruct (String.eqb_spec k "Y"); [now right; left; right; right|].
  destruct (String.eqb_spec k "n"); [now right; right; left; left|].
  destruct (String.eqb_spec k "N"); [now right; right; left; right|].
  now repeat right.
Qed.

Lemma confirm_feed_cons (k : string) (ks : list string) (st : State) :
  feed (k :: ks) st = feed ks (deliver st k).
Proof. reflexivity. Qed.

Lemma confirm_feed_app (ks1 ks2 : list string) (st : State) :
  feed (ks1 ++ ks2) st = feed ks2 (feed ks1 st).
Proof. unfold feed. apply fold_left_app. Qed.

(** C9. The confirm handler resolves to yes on Enter, "y" and "Y", to no on
    "n" and "N", and does nothing at all on any other chunk (the Interrupt
    chunk aside, which ends the process): so Enter alone yields yes, "n"
    yields no, and "x" followed by "y" yields yes. *)
Theorem C9_confirm_decisions (question : string) (k : string) (st : State) :
  (k = KEY_ENTER \/ k = "y" \/ k = "Y" -> status (handleKey k st) = Resolved true)
  /\ (k = "n" \/ k = "N" -> status (handleKey k st) = Resolved false)
  /\ (k <> KEY_CTRL_C -> k <> KEY_ENTER -> k <> "y" -> k <> "Y" -> k <> "n" -> k <> "N" ->
      handleKey k st = st)
  /\ status (run question [KEY_ENTER]) = Resolved true
  /\ status (run question ["n"]) = Resolved false
  /\ status (run question ["x"; "y"]) = Resolved true
  /\ status (run question ["x"]) = Pending.
Proof.
  repeat split.
  - intros H. now rewrite confirm_handleKey_yes.
  - intros H. now rewrite confirm_handleKey_no.
  - apply confirm_handleKey_other.
Qed.

End ConfirmFacts.

(** ** The terminal session *)

Section TraceFacts.

Lemma terminal_after_app (tr1 tr2 : list Effect) :
  terminal_after (tr1 ++ tr2) = fold_left apply_effect tr2 (terminal_after tr1).
Proof. unfold terminal_after. apply fold_left_app. Qed.

Lemma acquires_app (tr1 tr2 : list Effect) :
  acquires (tr1 ++ tr2) = (acquires tr1 + acquires tr2)%nat.
Proof. unfold acquires. now rewrite filter_app, length_app. Qed.

Lemma releases_app (tr1 tr2 : list Effect) :
  releases (tr1 ++ tr2) = (releases tr1 + releases tr2)%nat.
Proof. unfold releases. now rewrite filter_app, length_app. Qed.

Lemma last_write_app (tr1 tr2 : list Effect) :
  last_write (tr1 ++ tr2)
  = fold_left (fun acc e => match e with Write s => Some s | _ => acc end)
      tr2 (last_write tr1).
Proof. unfold last_write. apply fold_left_app. Qed.

(** Calls that leave the input mode alone count neither as an acquire nor as
    a release, and the terminal stays in the mode it was in. *)
Lemma keeps_mode_acquires (tr : list Effect) :
  forallb keeps_mode tr = true -> acquires tr = 0%nat.
Proof.
  unfold acquires. induction tr as [|e tr IH]; simpl; [reflexivity|].
  intros H. apply andb_true_iff in H as [He Htr].
  destruct e; simpl in *; try discriminate; now apply IH.
Qed.

Lemma keeps_mode_releases (tr : list Effect) :
  forallb keeps_mode tr = true -> releases tr = 0%nat.
Proof.
  unfold releases. induction tr as [|e tr IH]; simpl; [reflexivity|].
  intros H. apply andb_true_iff in H as [He Htr].
  destruct e; simpl in *; try discriminate; now apply IH.
Qed.

Lemma apply_effect_keeps_mode (t : Terminal) (e : Effect) :
  keeps_mode e = true -> rawMode (apply_effect t e) = rawMode t.
Proof.
  destruct e; simpl; try reflexivity; [|discriminate].
  intros _. destruct (String.eqb s hideCursor); [reflexivity|].
  destruct (String.eqb s showCursor); reflexivity.
Qed.

Lemma keeps_mode_rawMode (tr : list Effect) (t : Terminal) :
  forallb keeps_mode tr = true -> rawMode (fold_left apply_effect tr t) = rawMode t.
Proof.
  revert t. induction tr as [|e tr IH]; intros t; simpl; [reflexivity|].
  intros H. apply andb_true_iff in H as [He Htr].
  rewrite IH by assumption. now apply apply_effect_keeps_mode.
Qed.

Lemma string_length_append (a b : string) :
  String.length (a ++ b) = (String.length a + String.length b)%nat.
Proof. induction a as [|c a IH]; simpl; [reflexivity | now rewrite IH]. Qed.

End TraceFacts.

Section MultiselectSession.
Import JsSet Multiselect.

Lemma render_rows_keeps_mode (cur : Z) (sel : JsSet.t) (opts : list Opt) (i : Z) :
  forallb keeps_mode (render_rows cur sel i opts) = true.
Proof.
  revert i. induction opts as [|opt rest IH]; intros i; [reflexivity|].
  simpl. apply IH.
Qed.

Lemma render_keeps_mode (options : list Opt) (cur : Z) (sel : JsSet.t) :
  forallb keeps_mode (render options cur sel) = true.
Proof. unfold render. simpl. apply render_rows_keeps_mode. Qed.

(** A repaint leaves a pending session as it was. *)
Lemma session_ok_render (options : list Opt) (cur : Z) (sel : JsSet.t)
    (tr : list Effect) :
  session_ok tr (@Pending (list string)) ->
  session_ok (tr ++ render options cur sel) (@Pending (list string)).
Proof.
  intros (Ha & Hr & Hm). pose proof (render_keeps_mode options cur sel) as Hq.
  repeat split.
  - rewrite acquires_app, (keeps_mode_acquires _ Hq). lia.
  - rewrite releases_app, (keeps_mode_releases _ Hq). lia.
  - now rewrite terminal_after_app, keeps_mode_rawMode.
Qed.

Lemma multiselect_session_ok (options : list Opt) :
  session_ok (trace (multiselect options)) (status (multiselect options)).
Proof.
  pose proof (render_keeps_mode options 0 (of_list [0])) as Hq.
  simpl. repeat split.
  - change (acquires ([Write hideCursor; Write (str_repeat LF (List.length options))]
                        ++ render options 0 (of_list [0])
                        ++ [SetRawMode true; Resume; SetEncoding "utf8"; OnData]) = 1%nat).
    rewrite !acquires_app, (keeps_mode_acquires _ Hq). reflexivity.
  - change (releases ([Write hideCursor; Write (str_repeat LF (List.length options))]
                        ++ render options 0 (of_list [0])
                        ++ [SetRawMode true; Resume; SetEncoding "utf8"; OnData]) = 0%nat).
    rewrite !releases_app, (keeps_mode_releases _ Hq). reflexivity.
  - change (rawMode (terminal_after
              (([Write hideCursor; Write (str_repeat LF (List.length options))]
                  ++ render options 0 (of_list [0]))
                 ++ [SetRawMode true; Resume; SetEncoding "utf8"; OnData])) = true).
    rewrite terminal_after_app. reflexivity.
Qed.

Lemma handleKey_session_ok (options : list Opt) (k : string) (st : State) :
  status st = Pending ->
  session_ok (trace st) (status st) ->
  session_ok (trace (handleKey options k st)) (status (handleKey options k st)).
Proof.
  intros Hp Hok. rewrite Hp in Hok.
  destruct (key_cases k) as [-> | [-> | [-> | [-> | [-> | (H1 & H2 & H3 & H4 & H5)]]]]].
  - rewrite handleKey_ctrl_c. simpl. destruct Hok as (Ha & Hr & Hm).
    repeat split.
    + rewrite acquires_app. simpl. change (acquires [Write showCursor; Exit 1]) with 0%nat. lia.
    + rewrite releases_app. change (releases [Write showCursor; Exit 1]) with 0%nat. lia.
    + rewrite terminal_after_app. simpl. exact Hm.
    + rewrite terminal_after_app. reflexivity.
  - rewrite handleKey_up. simpl. rewrite Hp. now apply session_ok_render.
  - rewrite handleKey_down. simpl. rewrite Hp. now apply session_ok_render.
  - rewrite handleKey_space. simpl. rewrite Hp. now apply session_ok_render.
  - rewrite handleKey_enter. simpl. destruct Hok as (Ha & Hr & Hm).
    assert (Hend : acquires (trace st ++ [RemoveListener; SetRawMode false; Pause;
                                           Write showCursor]) = 1%nat
                   /\ releases (trace st ++ [RemoveListener; SetRawMode false; Pause;
                                             Write showCursor]) = 1%nat
                   /\ rawMode (terminal_after
                        (trace st ++ [RemoveListener; SetRawMode false; Pause;
                                      Write showCursor])) = false
                   /\ cursorHidden (terminal_after
                        (trace st ++ [RemoveListener; SetRawMode false; Pause;
                                      Write showCursor])) = false).
    { rewrite acquires_app, releases_app, terminal_after_app.
      change (acquires [RemoveListener; SetRawMode false; Pause; Write showCursor])
        with 0%nat.
      change (releases [RemoveListener; SetRawMode false; Pause; Write showCursor])
        with 1%nat.
      repeat split; try lia; reflexivity. }
    destruct Hend as (E1 & E2 & E3 & E4).
    destruct (map_keys options (to_array (selected st))); repeat split; assumption.
  - rewrite handleKey_other by assumption. now rewrite Hp.
Qed.

Lemma feed_session_ok (options : list Opt) (ks : list string) (st : State) :
  session_ok (trace st) (status st) ->
  session_ok (trace (feed options ks st)) (status (feed options ks st)).
Proof.
  revert st. induction ks as [|k ks IH]; intros st Hok; [assumption|].
  rewrite feed_cons. apply IH. unfold deliver.
  destruct (status st) eqn:E; try (now rewrite E).
  apply handleKey_session_ok; [assumption | now rewrite E].
Qed.

End MultiselectSession.

Section ConfirmSession.
Import Confirm.

Lemma prompt_line_length (question : string) :
  String.length (prompt_line question) = (String.length question + 15)%nat.
Proof. unfold prompt_line. now rewrite string_length_append. Qed.

(** The opening line is neither of the two cursor-visibility sequences. *)
Lemma prompt_line_not_control (question : string) :
  String.eqb (prompt_line question) hideCursor = false
  /\ String.eqb (prompt_line question) showCursor = false.
Proof.
  pose proof (prompt_line_length question) as Hlen.
  split; apply String.eqb_neq; intros E; rewrite E in Hlen; simpl in Hlen; lia.
Qed.

Lemma confirm_terminal (question : string) :
  terminal_after (trace (confirm question)) = {| rawMode := true; cursorHidden := false |}.
Proof.
  destruct (prompt_line_not_control question) as [Hh Hs].
  unfold terminal_after, confirm.
  cbn [trace app fold_left apply_effect]. now rewrite Hh, Hs.
Qed.

Lemma confirm_feed_settled (ks : list string) (st : State) :
  status st <> Pending -> feed ks st = st.
Proof.
  intros H. induction ks as [|k ks IH]; [reflexivity|].
  rewrite confirm_feed_cons. unfold deliver.
  destruct (status st) eqn:E; try assumption. congruence.
Qed.

(** A pending confirm prompt has done nothing since it was set up; a settled
    one has handled exactly one deciding chunk. *)
Lemma confirm_run_cases (question : string) (ks : list string) :
  run question ks = confirm question
  \/ run question ks = handleKey KEY_CTRL_C (confirm question)
  \/ (exists k, (k = KEY_ENTER \/ k = "y" \/ k = "Y")
                /\ run question ks = handleKey k (confirm question))
  \/ (exists k, (k = "n" \/ k = "N")
                /\ run question ks = handleKey k (confirm question)).
Proof.
  unfold run. induction ks as [|k ks IH]; [now left|].
  rewrite confirm_feed_cons. unfold deliver. cbn [status confirm].
  destruct (confirm_key_cases k)
    as [-> | [Hy | [Hn | (H1 & H2 & H3 & H4 & H5 & H6)]]].
  - right; left. now apply confirm_feed_settled.
  - right; right; left. exists k. split; [assumption|].
    apply confirm_feed_settled. now rewrite confirm_handleKey_yes.
  - right; right; right. exists k. split; [assumption|].
    apply confirm_feed_settled. now rewrite confirm_handleKey_no.
  - rewrite confirm_handleKey_other by assumption. exact IH.
Qed.

Lemma confirm_run_pending (question : string) (ks : list string) :
  status (run question ks) = Pending -> run question ks = confirm question.
Proof.
  intros Hp.
  destruct (confirm_run_cases question ks) as [E | [E | [(k & Hk & E) | (k & Hk & E)]]];
    [assumption | | |]; rewrite E in Hp.
  - discriminate Hp.
  - now rewrite confirm_handleKey_yes in Hp.
  - now rewrite confirm_handleKey_no in Hp.
Qed.

Lemma confirm_session_ok (question : string) (ks : list string) :
  session_ok (trace (run question ks)) (status (run question ks))
  /\ cursorHidden (terminal_after (trace (run question ks))) = false.
Proof.
  pose proof (confirm_terminal question) as Ht.
  destruct (confirm_run_cases question ks) as [E | [E | [(k & Hk & E) | (k & Hk & E)]]];
    rewrite E; clear E.
  - rewrite Ht. unfold session_ok. cbn [status confirm]. rewrite Ht.
    now repeat split.
  - rewrite confirm_handleKey_ctrl_c. unfold session_ok. cbn [trace status].
    rewrite terminal_after_app, Ht. now repeat split.
  - rewrite (confirm_handleKey_yes _ _ Hk). unfold session_ok. cbn [trace status].
    rewrite !terminal_after_app, Ht. now repeat split.
  - rewrite (confirm_handleKey_no _ _ Hk). unfold session_ok. cbn [trace status].
    rewrite !terminal_after_app, Ht. now repeat split.
Qed.

End ConfirmSession.

(** ** Interrupt and the release of the terminal *)

Section SessionClaims.

(** C3, as stated, fails for the confirm prompt: its Interrupt branch calls
    [process.exit(1)] and writes nothing, so the last output of the process
    is the question line, not the sequence that shows the cursor. *)
Lemma C3_counterexample :
  Confirm.status (Confirm.run "Stage?" [KEY_CTRL_C]) = Exited 1
  /\ last_write (Confirm.trace (Confirm.run "Stage?" [KEY_CTRL_C]))
     = Some (Confirm.prompt_line "Stage?")
  /\ last_write (Confirm.trace (Confirm.run "Stage?" [KEY_CTRL_C])) <> Some showCursor
  /\ ~ In (Write showCursor) (Confirm.trace (Confirm.run "Stage?" [KEY_CTRL_C])).
Proof.
  repeat split.
  - discriminate.
  - simpl. intros H. repeat (destruct H as [H | H]; [discriminate H|]). exact H.
Qed.

(** C3, amended.  An Interrupt chunk that reaches a pending multi-select
    prompt makes the handler write the sequence that shows the cursor and
    then end the process with status 1: nothing is written after it and the
    cursor is visible.  An Interrupt chunk that reaches a pending confirm
    prompt, which never hid the cursor, ends the process with status 1
    without writing anything: the question line stays the last output. *)
Theorem C3_interrupt_exits (options : list Opt) (keys : list string)
    (question : string) (ckeys : list string) :
  Multiselect.status (Multiselect.run options keys) = Pending ->
  Confirm.status (Confirm.run question ckeys) = Pending ->
  (Multiselect.trace (Multiselect.run options (keys ++ [KEY_CTRL_C]))
   = Multiselect.trace (Multiselect.run options keys) ++ [Write showCursor; Exit 1]
   /\ Multiselect.status (Multiselect.run options (keys ++ [KEY_CTRL_C])) = Exited 1
   /\ last_write (Multiselect.trace (Multiselect.run options (keys ++ [KEY_CTRL_C])))
      = Some showCursor
   /\ cursorHidden
        (terminal_after (Multiselect.trace (Multiselect.run options (keys ++ [KEY_CTRL_C]))))
      = false)
  /\ (Confirm.trace (Confirm.run question (ckeys ++ [KEY_CTRL_C]))
      = Confirm.trace (Confirm.run question ckeys) ++ [Exit 1]
      /\ Confirm.status (Confirm.run question (ckeys ++ [KEY_CTRL_C])) = Exited 1
      /\ last_write (Confirm.trace (Confirm.run question (ckeys ++ [KEY_CTRL_C])))
         = Some (Confirm.prompt_line question)
      /\ cursorHidden
           (terminal_after (Confirm.trace (Confirm.run question (ckeys ++ [KEY_CTRL_C]))))
         = false).
Proof.
  intros Hm Hc. split.
  - unfold Multiselect.run in *. rewrite feed_app.
    change (Multiselect.feed options [KEY_CTRL_C] ?s)
      with (Multiselect.deliver options s KEY_CTRL_C).
    rewrite deliver_pending, handleKey_ctrl_c by assumption.
    cbn [Multiselect.trace Multiselect.status].
    repeat split.
    + now rewrite last_write_app.
    + now rewrite terminal_after_app.
  - pose proof (confirm_run_pending _ _ Hc) as E.
    unfold Confirm.run in *. rewrite confirm_feed_app, E.
    repeat split.
    change (cursorHidden
              (terminal_after (Confirm.trace (Confirm.confirm question) ++ [Exit 1])) = false).
    now rewrite terminal_after_app, confirm_terminal.
Qed.

Lemma C3_interrupt_exits_witness :
  let options := [mkOpt "pre-commit" "pre-commit" "a"; mkOpt "pre-push" "pre-push" "b"] in
  let keys := [KEY_DOWN; KEY_SPACE] in
  (Multiselect.trace (Multiselect.run options (keys ++ [KEY_CTRL_C]))
   = Multiselect.trace (Multiselect.run options keys) ++ [Write showCursor; Exit 1]
   /\ Multiselect.status (Multiselect.run options (keys ++ [KEY_CTRL_C])) = Exited 1
   /\ last_write (Multiselect.trace (Multiselect.run options (keys ++ [KEY_CTRL_C])))
      = Some showCursor
   /\ cursorHidden
        (terminal_after (Multiselect.trace (Multiselect.run options (keys ++ [KEY_CTRL_C]))))
      = false)
  /\ (Confirm.trace (Confirm.run "Stage?" (["x"] ++ [KEY_CTRL_C]))
      = Confirm.trace (Confirm.run "Stage?" ["x"]) ++ [Exit 1]
      /\ Confirm.status (Confirm.run "Stage?" (["x"] ++ [KEY_CTRL_C])) = Exited 1
      /\ last_write (Confirm.trace (Confirm.run "Stage?" (["x"] ++ [KEY_CTRL_C])))
         = Some (Confirm.prompt_line "Stage?")
      /\ cursorHidden
           (terminal_after (Confirm.trace (Confirm.run "Stage?" (["x"] ++ [KEY_CTRL_C]))))
         = false).
Proof.
  intros options keys.
  apply (C3_interrupt_exits options keys "Stage?" ["x"]); reflexivity.
Defined.

(** C4, as stated, fails on the Interrupt path: the handler ends the process
    without calling [setRawMode(false)], so the one acquire is matched by no
    release and the terminal is still in raw mode when [process.exit] is
    called. *)
Lemma C4_counterexample :
  let st := Multiselect.run [mkOpt "pre-commit" "pre-commit" "a"] [KEY_CTRL_C] in
  Multiselect.status st = Exited 1
  /\ acquires (Multiselect.trace st) = 1%nat
  /\ releases (Multiselect.trace st) = 0%nat
  /\ rawMode (terminal_after (Multiselect.trace st)) = true.
Proof. repeat split. Qed.

(** C4, amended.  Either prompt enters raw mode exactly once.  When it
    resolves (or, for the multi-select prompt, when the Enter handler
    throws), [setRawMode(false)] has been called exactly once, raw mode is
    off and the cursor is visible.  When it is ended by Interrupt, the exit
    status is 1 and the cursor is visible, but the prompt has made no
    [setRawMode(false)] call: the input mode is left to the end of the
    process.  No settled prompt leaves the cursor hidden. *)
Theorem C4_release_by_exit_path (options : list Opt) (keys : list string)
    (question : string) (ckeys : list string) :
  let tr := Multiselect.trace (Multiselect.run options keys) in
  let ctr := Confirm.trace (Confirm.run question ckeys) in
  (acquires tr = 1%nat
   /\ (forall r, Multiselect.status (Multiselect.run options keys) = Resolved r ->
         releases tr = 1%nat
         /\ rawMode (terminal_after tr) = false
         /\ cursorHidden (terminal_after tr) = false)
   /\ (forall err, Multiselect.status (Multiselect.run options keys) = Thrown err ->
         releases tr = 1%nat
         /\ rawMode (terminal_after tr) = false
         /\ cursorHidden (terminal_after tr) = false)
   /\ (forall code, Multiselect.status (Multiselect.run options keys) = Exited code ->
         code = 1
         /\ releases tr = 0%nat
         /\ cursorHidden (terminal_after tr) = false))
  /\ (acquires ctr = 1%nat
      /\ (forall r, Confirm.status (Confirm.run question ckeys) = Resolved r ->
            releases ctr = 1%nat
            /\ rawMode (terminal_after ctr) = false
            /\ cursorHidden (terminal_after ctr) = false)
      /\ (forall code, Confirm.status (Confirm.run question ckeys) = Exited code ->
            code = 1
            /\ releases ctr = 0%nat
            /\ cursorHidden (terminal_after ctr) = false)).
Proof.
  intros tr ctr. subst tr ctr. split.
  - pose proof (feed_session_ok options keys _ (multiselect_session_ok options)) as Hok.
    fold (Multiselect.run options keys) in Hok.
    destruct Hok as [Ha Hs]. split; [exact Ha|].
    split; [|split]; intros x Hx; rewrite Hx in Hs; tauto.
  - destruct (confirm_session_ok question ckeys) as [[Ha Hs] Hv].
    split; [exact Ha|].
    split; intros x Hx; rewrite Hx in Hs; tauto.
Qed.

Lemma C4_release_by_exit_path_witness :
  let options := [mkOpt "pre-commit" "pre-commit" "a"; mkOpt "pre-push" "pre-push" "b"] in
  let tr := Multiselect.trace (Multiselect.run options [KEY_DOWN; KEY_SPACE; KEY_ENTER]) in
  let ctr := Confirm.trace (Confirm.run "Stage?" ["x"; "N"]) in
  (Multiselect.status (Multiselect.run options [KEY_DOWN; KEY_SPACE; KEY_ENTER])
   = Resolved ["pre-commit"; "pre-push"]
   /\ acquires tr = 1%nat
   /\ releases tr = 1%nat
   /\ rawMode (terminal_after tr) = false
   /\ cursorHidden (terminal_after tr) = false)
  /\ (Confirm.status (Confirm.run "Stage?" ["x"; "N"]) = Resolved false
      /\ acquires ctr = 1%nat
      /\ releases ctr = 1%nat
      /\ rawMode (terminal_after ctr) = false
      /\ cursorHidden (terminal_after ctr) = false).
Proof.
  intros options tr ctr.
  destruct (C4_release_by_exit_path options [KEY_DOWN; KEY_SPACE; KEY_ENTER]
              "Stage?" ["x"; "N"]) as [(Ha & Hr & _) (Hca & Hcr & _)].
  split.
  - split; [reflexivity|]. split; [exact Ha|]. exact (Hr _ eq_refl).
  - split; [reflexivity|]. split; [exact Hca|]. exact (Hcr _ eq_refl).
Defined.

End SessionClaims.

(** ** The value Enter resolves to *)

Section EnterFacts.
Import JsSet Multiselect.

Lemma handleKey_NoDup (options : list Opt) (k : string) (st : State) :
  NoDup (selected st) -> NoDup (selected (handleKey options k st)).
Proof.
  intros Hd.
  destruct (key_cases k) as [-> | [-> | [-> | [-> | [-> | (H1 & H2 & H3 & H4 & H5)]]]]].
  - now rewrite handleKey_ctrl_c.
  - now rewrite handleKey_up.
  - now rewrite handleKey_down.
  - rewrite handleKey_space. simpl. now apply toggle_NoDup.
  - now rewrite handleKey_enter.
  - now rewrite handleKey_other.
Qed.

Lemma run_NoDup (options : list Opt) (ks : list string) :
  NoDup (selected (run options ks)).
Proof.
  unfold run.
  assert (H0 : NoDup (selected (multiselect options)))
    by (repeat constructor; simpl; tauto).
  revert H0. generalize (multiselect options).
  induction ks as [|k ks IH]; intros st Hd; [assumption|].
  rewrite feed_cons. apply IH. unfold deliver.
  destruct (status st); try assumption. now apply handleKey_NoDup.
Qed.

Lemma run_snoc (options : list Opt) (ks : list string) (k : string) :
  status (run options ks) = Pending ->
  run options (ks ++ [k]) = handleKey options k (run options ks).
Proof.
  intros Hp. unfold run in *. rewrite feed_app.
  change (feed options [k] ?s) with (deliver options s k).
  now apply deliver_pending.
Qed.

Lemma key_at_middle (pre rest : list Opt) (opt : Opt) :
  key_at (pre ++ opt :: rest) (Z.of_nat (List.length pre)) = key opt.
Proof.
  unfold key_at, get.
  destruct (Z.ltb_spec (Z.of_nat (List.length pre)) 0); [lia|].
  rewrite Nat2Z.id, nth_error_app2 by lia.
  now rewrite Nat.sub_diag.
Qed.

(** The ascending projection reads the keys at the member indices, taken in
    the order [0, 1, ..., N - 1]. *)
Lemma ascending_from_map (sel : JsSet.t) (rest pre : list Opt) :
  ascending_from (Z.of_nat (List.length pre)) rest sel
  = map (key_at (pre ++ rest))
      (filter (fun i => has i sel)
         (map Z.of_nat (seq (List.length pre) (List.length rest)))).
Proof.
  revert pre. induction rest as [|opt rest IH]; intros pre; [reflexivity|].
  assert (IH' : ascending_from (Z.of_nat (List.length pre) + 1) rest sel
                = map (key_at (pre ++ opt :: rest))
                    (filter (fun i => has i sel)
                       (map Z.of_nat (seq (S (List.length pre)) (List.length rest))))).
  { specialize (IH (pre ++ [opt])).
    rewrite length_app, <- app_assoc in IH. simpl in IH.
    rewrite Nat.add_1_r, Nat2Z.inj_succ in IH.
    unfold Z.succ in IH. exact IH. }
  cbn [ascending_from List.length seq map filter].
  destruct (has (Z.of_nat (List.length pre)) sel).
  - cbn [map]. now rewrite key_at_middle, IH'.
  - exact IH'.
Qed.

Lemma ascending_projection_map (options : list Opt) (sel : JsSet.t) :
  ascending_projection options sel
  = map (key_at options)
      (filter (fun i => has i sel) (map Z.of_nat (seq 0 (List.length options)))).
Proof. exact (ascending_from_map sel options []). Qed.

(** A duplicate-free list of indices of [options] lists the member indices,
    in some order. *)
Lemma selected_Permutation (options : list Opt) (sel : JsSet.t) :
  NoDup sel -> Forall (in_range options) sel ->
  Permutation sel
    (filter (fun i => has i sel) (map Z.of_nat (seq 0 (List.length options)))).
Proof.
  intros Hd Hr. apply NoDup_Permutation; [assumption | |].
  - apply NoDup_filter, Finite.Injective_map_NoDup; [|apply seq_NoDup].
    intros a b. apply Nat2Z.inj.
  - intros i. rewrite filter_In, in_map_iff, has_true_iff. split.
    + intros Hi. split; [|assumption].
      rewrite Forall_forall in Hr. destruct (Hr i Hi) as [H0 HN].
      exists (Z.to_nat i). split; [lia|]. apply in_seq. lia.
    + tauto.
Qed.

End EnterFacts.

Section EnterClaims.
Import JsSet Multiselect.

(** C1, as stated, fails: [Array.from(selected)] lists the members in the
    order they were added.  With three options, deselecting index 0, selecting
    index 2 and then selecting index 0 again resolves to the keys of 2 and 0
    in that order, where the ascending projection is the keys of 0 and 2. *)
Lemma C1_counterexample :
  let options := [mkOpt "A" "a" "first"; mkOpt "B" "b" "second"; mkOpt "C" "c" "third"] in
  let keys := [KEY_SPACE; KEY_DOWN; KEY_DOWN; KEY_SPACE; KEY_UP; KEY_UP; KEY_SPACE;
               KEY_ENTER] in
  status (run options keys) = Resolved ["C"; "A"]
  /\ selected (run options keys) = [2; 0]
  /\ ascending_projection options (selected (run options keys)) = ["A"; "C"]
  /\ status (run options keys)
     <> Resolved (ascending_projection options (selected (run options keys))).
Proof. repeat split. discriminate. Qed.

(** C1, amended.  When Enter reaches a pending multi-select prompt, the value
    the prompt resolves to is the projection of the selected indices onto
    their [key] fields in the order the indices were added to the set: with at
    least one option the prompt does resolve, and whatever it resolves to
    holds the same keys as the ascending-index projection, in insertion
    order. *)
Theorem C1_enter_projects_in_insertion_order (options : list Opt) (keys : list string) :
  status (run options keys) = Pending ->
  (options <> [] ->
   status (run options (keys ++ [KEY_ENTER]))
   = Resolved (map (key_at options) (to_array (selected (run options keys)))))
  /\ (forall r, status (run options (keys ++ [KEY_ENTER])) = Resolved r ->
        r = map (key_at options) (to_array (selected (run options keys)))
        /\ Permutation r (ascending_projection options (selected (run options keys)))).
Proof.
  intros Hp. rewrite (run_snoc _ _ _ Hp), handleKey_enter. cbn [status]. split.
  - intros HN. unfold to_array.
    now rewrite (map_keys_in_range _ _ (inv_selected _ _ (run_inv options keys HN))).
  - intros r Hr. unfold to_array in *.
    destruct (map_keys options (selected (run options keys))) as [ks|] eqn:E;
      [|discriminate Hr].
    injection Hr as <-.
    assert (Hrange : Forall (in_range options) (selected (run options keys)))
      by (apply map_keys_defined; congruence).
    rewrite (map_keys_in_range _ _ Hrange) in E. injection E as <-.
    split; [reflexivity|].
    rewrite ascending_projection_map. apply Permutation_map.
    apply selected_Permutation; [apply run_NoDup | assumption].
Qed.

Lemma C1_enter_projects_in_insertion_order_witness :
  let options := [mkOpt "A" "a" "first"; mkOpt "B" "b" "second"; mkOpt "C" "c" "third"] in
  let keys := [KEY_SPACE; KEY_DOWN; KEY_DOWN; KEY_SPACE; KEY_UP; KEY_UP; KEY_SPACE] in
  status (run options (keys ++ [KEY_ENTER])) = Resolved ["C"; "A"]
  /\ Permutation ["C"; "A"] (ascending_projection options (selected (run options keys))).
Proof.
  intros options keys.
  destruct (C1_enter_projects_in_insertion_order options keys eq_refl) as [Hres Hperm].
  split.
  - apply Hres. discriminate.
  - apply (Hperm ["C"; "A"]). reflexivity.
Defined.

End EnterClaims.

(** ** The empty option list *)

Section EmptyList.
Import JsSet Multiselect.

Lemma get_nil (i : Z) : get [] i = None.
Proof.
  unfold get. destruct (Z.ltb i 0); [reflexivity|].
  now destruct (Z.to_nat i).
Qed.

Lemma map_keys_nil (xs : list Z) (ks : list string) :
  map_keys [] xs = Some ks -> xs = [] /\ ks = [].
Proof.
  destruct xs as [|i xs]; simpl.
  - intros H. injection H as <-. now split.
  - rewrite get_nil. discriminate.
Qed.

Lemma feed_nil_resolved (ks : list string) (st : State) :
  (forall r, status st = Resolved r -> r = []) ->
  forall r, status (feed [] ks st) = Resolved r -> r = [].
Proof.
  revert st. induction ks as [|k ks IH]; intros st Hst; [assumption|].
  rewrite feed_cons. apply IH. unfold deliver.
  destruct (status st) eqn:Est; try (now rewrite Est).
  destruct (key_cases k) as [-> | [-> | [-> | [-> | [-> | (H1 & H2 & H3 & H4 & H5)]]]]].
  - rewrite handleKey_ctrl_c. simpl. discriminate.
  - rewrite handleKey_up. simpl. now rewrite Est.
  - rewrite handleKey_down. simpl. now rewrite Est.
  - rewrite handleKey_space. simpl. now rewrite Est.
  - rewrite handleKey_enter. simpl. intros r.
    destruct (map_keys [] (to_array (selected st))) as [ks'|] eqn:E; [|discriminate].
    intros H. injection H as <-. now destruct (map_keys_nil _ _ E).
  - rewrite handleKey_other by assumption. now rewrite Est.
Qed.

(** C2, as stated, fails: there is no test for the empty list, and the
    prompt called with no options enters raw mode, installs the key handler
    and is left pending. *)
Lemma C2_counterexample :
  status (multiselect []) = Pending
  /\ status (multiselect []) <> Resolved []
  /\ In (SetRawMode true) (trace (multiselect []))
  /\ In OnData (trace (multiselect []))
  /\ rawMode (terminal_after (trace (multiselect []))) = true.
Proof.
  repeat split.
  - discriminate.
  - simpl. tauto.
  - simpl. tauto.
Qed.

(** C2, amended.  Called with an empty option list, the multi-select prompt
    does not resolve by itself: it hides the cursor, enters raw mode and
    installs the key handler as it does for any list, and is left pending.
    The empty selection is the only value it ever resolves to, and it
    resolves to it when index 0 is deselected with Space before Enter. *)
Theorem C2_empty_list_still_prompts (keys : list string) :
  trace (multiselect [])
  = [Write hideCursor; Write ""; MoveCursor 0 0;
     SetRawMode true; Resume; SetEncoding "utf8"; OnData]
  /\ status (multiselect []) = Pending
  /\ rawMode (terminal_after (trace (multiselect []))) = true
  /\ (forall r, status (run [] keys) = Resolved r -> r = [])
  /\ status (run [] [KEY_SPACE; KEY_ENTER]) = Resolved [].
Proof.
  split; [reflexivity|]. split; [reflexivity|]. split; [reflexivity|].
  split; [|reflexivity].
  apply feed_nil_resolved. simpl. discriminate.
Qed.

End EmptyList.

(** * Further properties of the prompts *)

(** ** Repainting *)

Section RenderFacts.
Import JsSet Multiselect.

Lemma newlines_append (a b : string) :
  newlines (a ++ b) = (newlines a + newlines b)%nat.
Proof.
  induction a as [|c a IH]; simpl; [reflexivity|].
  destruct (Ascii.eqb c "010"); simpl; now rewrite IH.
Qed.

Lemma rows_down_app (tr1 tr2 : list Effect) :
  rows_down (tr1 ++ tr2) = rows_down tr1 + rows_down tr2.
Proof.
  induction tr1 as [|e tr1 IH]; simpl; [reflexivity|].
  destruct e; rewrite IH; lia.
Qed.

(** A row whose label and description hold no line feed ends the one line
    it is written on. *)
Lemma render_row_rows_down (cur : Z) (sel : JsSet.t) (i : Z) (opt : Opt) :
  newlines (name opt) = 0%nat -> newlines (desc opt) = 0%nat ->
  rows_down (render_row cur sel i opt) = 1.
Proof.
  intros Hn Hd. unfold render_row. cbn [rows_down].
  rewrite !newlines_append.
  destruct (has i sel), (Z.eqb i cur);
    rewrite ?newlines_append, Hn, Hd; reflexivity.
Qed.

Lemma render_rows_rows_down (cur : Z) (sel : JsSet.t) (opts : list Opt) (i : Z) :
  Forall (fun o => newlines (name o) = 0%nat /\ newlines (desc o) = 0%nat) opts ->
  rows_down (render_rows cur sel i opts) = Z.of_nat (List.length opts).
Proof.
  intros H. revert i. induction H as [|opt rest [Hn Hd] _ IH]; intros i; [reflexivity|].
  cbn [render_rows List.length].
  rewrite rows_down_app, render_row_rows_down, IH by assumption. lia.
Qed.

Lemma render_rows_down (options : list Opt) (cur : Z) (sel : JsSet.t) :
  Forall (fun o => newlines (name o) = 0%nat /\ newlines (desc o) = 0%nat) options ->
  rows_down (render options cur sel) = 0.
Proof.
  intros H. unfold render. cbn [rows_down].
  rewrite render_rows_rows_down by assumption. lia.
Qed.

Lemma newlines_str_repeat_LF (n : nat) : newlines (str_repeat LF n) = n.
Proof. induction n as [|n IH]; simpl; [reflexivity | now rewrite IH]. Qed.

Lemma handleKey_rows_down (options : list Opt) (k : string) (st : State) :
  Forall (fun o => newlines (name o) = 0%nat /\ newlines (desc o) = 0%nat) options ->
  rows_down (trace (handleKey options k st)) = rows_down (trace st).
Proof.
  intros H.
  destruct (key_cases k) as [-> | [-> | [-> | [-> | [-> | (H1 & H2 & H3 & H4 & H5)]]]]].
  - rewrite handleKey_ctrl_c. cbn [trace]. rewrite rows_down_app. simpl. lia.
  - rewrite handleKey_up. cbn [trace]. rewrite rows_down_app, render_rows_down; [lia | assumption].
  - rewrite handleKey_down. cbn [trace].
    rewrite rows_down_app, render_rows_down; [lia | assumption].
  - rewrite handleKey_space. cbn [trace].
    rewrite rows_down_app, render_rows_down; [lia | assumption].
  - rewrite handleKey_enter. cbn [trace]. rewrite rows_down_app. simpl. lia.
  - now rewrite handleKey_other.
Qed.

(** The rows of a frame read [selected] through [has] alone. *)
Lemma render_rows_ext (cur : Z) (s1 s2 : JsSet.t) (opts : list Opt) (i : Z) :
  (forall j, has j s1 = has j s2) ->
  render_rows cur s1 i opts = render_rows cur s2 i opts.
Proof.
  intros H. revert i. induction opts as [|opt rest IH]; intros i; [reflexivity|].
  cbn [render_rows]. unfold render_row. now rewrite (H i), IH.
Qed.

End RenderFacts.

Section RenderClaims.
Import JsSet Multiselect.

(** X1. When no label and no description holds a line feed, a repaint
    leaves the cursor on the row it found it on, and at every moment of the
    prompt the cursor is [N] rows below the row the prompt started on:
    frames are painted over one another, without drift. *)
Theorem X1_repaint_in_place (options : list Opt) (keys : list string)
    (cur : Z) (sel : JsSet.t) :
  Forall (fun o => newlines (name o) = 0%nat /\ newlines (desc o) = 0%nat) options ->
  rows_down (render options cur sel) = 0
  /\ rows_down (trace (run options keys)) = Z.of_nat (List.length options).
Proof.
  intros H. split; [now apply render_rows_down|].
  unfold run.
  assert (H0 : rows_down (trace (multiselect options)) = Z.of_nat (List.length options)).
  { cbn [trace multiselect]. rewrite !rows_down_app, render_rows_down by assumption.
    cbn [rows_down]. rewrite newlines_str_repeat_LF.
    change (newlines hideCursor) with 0%nat. lia. }
  revert H0. generalize (multiselect options).
  induction keys as [|k ks IH]; intros st Hst; [assumption|].
  rewrite feed_cons. apply IH. unfold deliver.
  destruct (status st); try assumption.
  now rewrite handleKey_rows_down.
Qed.

Lemma X1_repaint_in_place_witness :
  rows_down (render Main.choices 2 [0; 1]) = 0
  /\ rows_down (trace (run Main.choices [KEY_DOWN; KEY_SPACE; KEY_UP; KEY_ENTER])) = 3.
Proof.
  apply (X1_repaint_in_place Main.choices [KEY_DOWN; KEY_SPACE; KEY_UP; KEY_ENTER] 2 [0; 1]).
  repeat constructor.
Defined.

(** X2. A frame shows [selected] through its members alone, never through
    the order they were added in: two sets with the same members paint the
    same frame, so the frame painted by the second of two Spaces at one
    cursor is the frame of the state before the first. *)
Theorem X2_frame_reads_membership (options : list Opt) (cur : Z) (s1 s2 : JsSet.t)
    (st : State) :
  ((forall i, has i s1 = has i s2) -> render options cur s1 = render options cur s2)
  /\ trace (handleKey options KEY_SPACE (handleKey options KEY_SPACE st))
     = trace st
         ++ render options (cursor st) (toggle (cursor st) (selected st))
         ++ render options (cursor st) (selected st).
Proof.
  split.
  - intros H. unfold render. f_equal. now apply render_rows_ext.
  - rewrite !handleKey_space. cbn [trace cursor selected]. rewrite <- app_assoc.
    do 2 f_equal. unfold render. f_equal. apply render_rows_ext.
    intros j. apply has_toggle_twice.
Qed.

End RenderClaims.

(** ** More on the cursor *)

Section CursorFacts.
Import JsSet Multiselect.

Lemma cursor_down_up (options : list Opt) (c : Z) :
  1 <= Z.of_nat (List.length options) -> 0 <= c < Z.of_nat (List.length options) ->
  cursor_down options (cursor_up options c) = c.
Proof.
  intros HN Hc. unfold cursor_down, cursor_up.
  destruct (Z.gtb_spec c 0).
  - destruct (Z.ltb_spec (c - 1) (Z.of_nat (List.length options) - 1)); lia.
  - destruct (Z.ltb_spec (Z.of_nat (List.length options) - 1)
                (Z.of_nat (List.length options) - 1)); lia.
Qed.

Lemma cursor_up_down (options : list Opt) (c : Z) :
  1 <= Z.of_nat (List.length options) -> 0 <= c < Z.of_nat (List.length options) ->
  cursor_up options (cursor_down options c) = c.
Proof.
  intros HN Hc. unfold cursor_down, cursor_up.
  destruct (Z.ltb_spec c (Z.of_nat (List.length options) - 1)).
  - destruct (Z.gtb_spec (c + 1) 0); lia.
  - destruct (Z.gtb_spec 0 0); lia.
Qed.

Lemma iter_cursor_down_range (options : list Opt) (k : nat) (c : Z) :
  1 <= Z.of_nat (List.length options) -> 0 <= c < Z.of_nat (List.length options) ->
  0 <= Nat.iter k (cursor_down options) c < Z.of_nat (List.length options).
Proof.
  intros HN Hc. induction k as [|k IH]; [assumption|].
  rewrite Nat.iter_succ. now apply cursor_down_range.
Qed.

(** [k] moves up undo [k] moves down. *)
Lemma iter_cursor_up_down (options : list Opt) (k : nat) (c : Z) :
  1 <= Z.of_nat (List.length options) -> 0 <= c < Z.of_nat (List.length options) ->
  Nat.iter k (cursor_up options) (Nat.iter k (cursor_down options) c) = c.
Proof.
  intros HN Hc. induction k as [|k IH]; [reflexivity|].
  rewrite Nat.iter_succ_r, Nat.iter_succ.
  rewrite cursor_up_down; [exact IH | assumption |].
  now apply iter_cursor_down_range.
Qed.

Lemma iter_handleKey_up (options : list Opt) (k : nat) (st : State) :
  cursor (Nat.iter k (handleKey options KEY_UP) st)
  = Nat.iter k (cursor_up options) (cursor st).
Proof.
  induction k as [|k IH]; [reflexivity|].
  rewrite !Nat.iter_succ, handleKey_up. simpl. now rewrite IH.
Qed.

End CursorFacts.

Section CursorClaims.
Import JsSet Multiselect.

(** X3. With at least one option and the cursor inside the list, Up and
    Down undo one another, and [N] Up keys in a row bring the cursor back
    where it started, as [N] Down keys do. *)
Theorem X3_up_down_inverse (options : list Opt) (st : State) :
  1 <= Z.of_nat (List.length options) ->
  0 <= cursor st < Z.of_nat (List.length options) ->
  cursor (handleKey options KEY_DOWN (handleKey options KEY_UP st)) = cursor st
  /\ cursor (handleKey options KEY_UP (handleKey options KEY_DOWN st)) = cursor st
  /\ cursor (Nat.iter (List.length options) (handleKey options KEY_UP) st) = cursor st.
Proof.
  intros HN Hc. rewrite !handleKey_up, !handleKey_down. cbn [cursor].
  split; [now apply cursor_down_up|]. split; [now apply cursor_up_down|].
  rewrite iter_handleKey_up.
  rewrite <- (iter_cursor_down_full options HN (cursor st) Hc) at 1.
  now apply iter_cursor_up_down.
Qed.

Lemma X3_up_down_inverse_witness :
  let st := handleKey Main.choices KEY_DOWN (multiselect Main.choices) in
  cursor st = 1
  /\ cursor (handleKey Main.choices KEY_DOWN (handleKey Main.choices KEY_UP st)) = cursor st
  /\ cursor (handleKey Main.choices KEY_UP (handleKey Main.choices KEY_DOWN st)) = cursor st
  /\ cursor (Nat.iter 3 (handleKey Main.choices KEY_UP) st) = cursor st.
Proof.
  intros st. split; [reflexivity|].
  apply (X3_up_down_inverse Main.choices st).
  - change (1 <= 3). lia.
  - change (0 <= 1 < 3). lia.
Defined.

End CursorClaims.

(** ** The terminal while the multi-select prompt is pending *)

Section PendingTerminal.
Import JsSet Multiselect.

(** A write longer than the six characters of the cursor-visibility
    sequences changes nothing of the terminal. *)
Lemma apply_effect_long_write (t : Terminal) (s : string) :
  (6 < String.length s)%nat -> apply_effect t (Write s) = t.
Proof.
  intros Hlen. simpl.
  assert (Hh : String.eqb s hideCursor = false)
    by (apply String.eqb_neq; intros E; rewrite E in Hlen; simpl in Hlen; lia).
  assert (Hs : String.eqb s showCursor = false)
    by (apply String.eqb_neq; intros E; rewrite E in Hlen; simpl in Hlen; lia).
  now rewrite Hh, Hs.
Qed.

Lemma render_row_terminal (cur : Z) (sel : JsSet.t) (i : Z) (opt : Opt) (t : Terminal) :
  fold_left apply_effect (render_row cur sel i opt) t = t.
Proof.
  unfold render_row. cbn [fold_left].
  change (apply_effect t (ClearLine 0)) with t.
  apply apply_effect_long_write.
  rewrite !string_length_append.
  destruct (has i sel), (Z.eqb i cur); simpl; lia.
Qed.

Lemma render_rows_terminal (cur : Z) (sel : JsSet.t) (opts : list Opt) (i : Z)
    (t : Terminal) :
  fold_left apply_effect (render_rows cur sel i opts) t = t.
Proof.
  revert i. induction opts as [|opt rest IH]; intros i; [reflexivity|].
  cbn [render_rows]. now rewrite fold_left_app, render_row_terminal.
Qed.

Lemma render_terminal (options : list Opt) (cur : Z) (sel : JsSet.t) (t : Terminal) :
  fold_left apply_effect (render options cur sel) t = t.
Proof. unfold render. cbn [fold_left apply_effect]. apply render_rows_terminal. Qed.

Lemma str_repeat_LF_terminal (n : nat) (t : Terminal) :
  apply_effect t (Write (str_repeat LF n)) = t.
Proof. destruct n; reflexivity. Qed.

Lemma multiselect_terminal (options : list Opt) :
  terminal_after (trace (multiselect options))
  = {| rawMode := true; cursorHidden := true |}.
Proof.
  unfold terminal_after. cbn [trace multiselect].
  rewrite !fold_left_app. cbn [fold_left].
  rewrite render_terminal, str_repeat_LF_terminal. reflexivity.
Qed.

Lemma handleKey_pending_terminal (options : list Opt) (k : string) (st : State) :
  status st = Pending ->
  status (handleKey options k st) = Pending ->
  terminal_after (trace (handleKey options k st)) = terminal_after (trace st).
Proof.
  intros Hp.
  destruct (key_cases k) as [-> | [-> | [-> | [-> | [-> | (H1 & H2 & H3 & H4 & H5)]]]]].
  - rewrite handleKey_ctrl_c. discriminate.
  - rewrite handleKey_up. cbn [trace]. intros _.
    now rewrite terminal_after_app, render_terminal.
  - rewrite handleKey_down. cbn [trace]. intros _.
    now rewrite terminal_after_app, render_terminal.
  - rewrite handleKey_space. cbn [trace]. intros _.
    now rewrite terminal_after_app, render_terminal.
  - rewrite handleKey_enter. cbn [status].
    destruct (map_keys options (to_array (selected st))); discriminate.
  - now rewrite handleKey_other.
Qed.

Lemma feed_pending_inv (options : list Opt) (ks : list string) (st : State) :
  status (feed options ks st) = Pending -> status st = Pending.
Proof.
  destruct (status st) eqn:E; [reflexivity | | |];
    (rewrite feed_settled by congruence); congruence.
Qed.

Lemma feed_pending_terminal (options : list Opt) (ks : list string) (st : State) :
  status st = Pending ->
  status (feed options ks st) = Pending ->
  terminal_after (trace (feed options ks st)) = terminal_after (trace st).
Proof.
  revert st. induction ks as [|k ks IH]; intros st Hst Hend; [reflexivity|].
  rewrite feed_cons, deliver_pending in * by assumption.
  pose proof (feed_pending_inv _ _ _ Hend) as Hk.
  rewrite IH by assumption. now apply handleKey_pending_terminal.
Qed.

(** X4. For as long as the multi-select prompt is pending, whatever chunks
    it has been sent, the terminal is in raw mode and its cursor is hidden. *)
Theorem X4_pending_terminal_raw_and_hidden (options : list Opt) (keys : list string) :
  status (run options keys) = Pending ->
  terminal_after (trace (run options keys))
  = {| rawMode := true; cursorHidden := true |}.
Proof.
  intros Hp. unfold run in *.
  rewrite feed_pending_terminal by (reflexivity || assumption).
  apply multiselect_terminal.
Qed.

Lemma X4_pending_terminal_raw_and_hidden_witness :
  terminal_after (trace (run Main.choices [KEY_DOWN; KEY_SPACE; "q"; KEY_UP]))
  = {| rawMode := true; cursorHidden := true |}.
Proof.
  apply (X4_pending_terminal_raw_and_hidden Main.choices [KEY_DOWN; KEY_SPACE; "q"; KEY_UP]).
  reflexivity.
Defined.

End PendingTerminal.

(** ** What the multi-select prompt resolves to *)

Section ResolvedFacts.
Import JsSet Multiselect.

Lemma handleKey_resolved (options : list Opt) (k : string) (st : State) (r : list string) :
  status st = Pending ->
  status (handleKey options k st) = Resolved r ->
  map_keys options (selected (handleKey options k st)) = Some r.
Proof.
  intros Hp.
  destruct (key_cases k) as [-> | [-> | [-> | [-> | [-> | (H1 & H2 & H3 & H4 & H5)]]]]].
  - rewrite handleKey_ctrl_c. discriminate.
  - rewrite handleKey_up. cbn [status]. congruence.
  - rewrite handleKey_down. cbn [status]. congruence.
  - rewrite handleKey_space. cbn [status]. congruence.
  - rewrite handleKey_enter. cbn [status selected]. unfold to_array.
    destruct (map_keys options (selected st)); congruence.
  - rewrite handleKey_other by assumption. congruence.
Qed.

(** The value a prompt has resolved to is the projection of its set. *)
Lemma feed_resolved (options : list Opt) (ks : list string) (st : State) :
  (forall r, status st = Resolved r -> map_keys options (selected st) = Some r) ->
  forall r, status (feed options ks st) = Resolved r ->
            map_keys options (selected (feed options ks st)) = Some r.
Proof.
  revert st. induction ks as [|k ks IH]; intros st Hst; [assumption|].
  rewrite feed_cons. apply IH. unfold deliver.
  destruct (status st) eqn:E; try (rewrite E; exact Hst).
  intros r0. now apply handleKey_resolved.
Qed.

Lemma run_resolved (options : list Opt) (ks : list string) (r : list string) :
  status (run options ks) = Resolved r ->
  map_keys options (selected (run options ks)) = Some r.
Proof.
  unfold run. apply feed_resolved. intros r0. discriminate.
Qed.

Lemma key_at_in (options : list Opt) (i : Z) :
  in_range options i -> In (key_at options i) (map key options).
Proof.
  intros Hi. unfold key_at.
  destruct (get_in_range _ _ Hi) as [opt E]. rewrite E.
  apply in_map. unfold get in E.
  destruct (Z.ltb i 0); [discriminate|]. now apply nth_error_In in E.
Qed.

Lemma key_at_inj (options : list Opt) (i j : Z) :
  NoDup (map key options) ->
  in_range options i -> in_range options j ->
  key_at options i = key_at options j -> i = j.
Proof.
  intros Hd Hi Hj E.
  pose proof (proj1 (NoDup_nth_error (map key options)) Hd (Z.to_nat i) (Z.to_nat j))
    as Hinj.
  unfold key_at, get in E. destruct Hi as [Hi0 HiN], Hj as [Hj0 HjN].
  destruct (Z.ltb_spec i 0); [lia|]. destruct (Z.ltb_spec j 0); [lia|].
  rewrite length_map, !nth_error_map in Hinj.
  destruct (nth_error options (Z.to_nat i)) as [oi|] eqn:Ei;
    [|apply nth_error_None in Ei; lia].
  destruct (nth_error options (Z.to_nat j)) as [oj|] eqn:Ej;
    [|apply nth_error_None in Ej; lia].
  simpl in Hinj. assert (Z.to_nat i = Z.to_nat j) by (apply Hinj; [lia | congruence]).
  lia.
Qed.

Lemma in_range_length (options : list Opt) (sel : list Z) :
  NoDup sel -> Forall (in_range options) sel ->
  (List.length sel <= List.length options)%nat.
Proof.
  intros Hd Hr.
  replace (List.length options)
    with (List.length (map Z.of_nat (seq 0 (List.length options))))
    by (now rewrite length_map, length_seq).
  apply NoDup_incl_length; [assumption|].
  intros i Hi. rewrite Forall_forall in Hr. destruct (Hr i Hi) as [H0 HN].
  apply in_map_iff. exists (Z.to_nat i). split; [lia|]. apply in_seq. lia.
Qed.

End ResolvedFacts.

Section ResolvedClaims.
Import JsSet Multiselect.

(** X5. Whatever the multi-select prompt resolves to, every key it returns
    is the key of one of the options, it returns no more keys than there
    are options, and when the options have distinct keys no key is returned
    twice. *)
Theorem X5_resolved_keys_are_option_keys (options : list Opt) (keys : list string)
    (r : list string) :
  status (run options keys) = Resolved r ->
  Forall (fun k => In k (map key options)) r
  /\ (List.length r <= List.length options)%nat
  /\ (NoDup (map key options) -> NoDup r).
Proof.
  intros Hr. apply run_resolved in Hr.
  assert (Hrange : Forall (in_range options) (selected (run options keys)))
    by (apply map_keys_defined; congruence).
  pose proof (run_NoDup options keys) as Hd.
  rewrite (map_keys_in_range _ _ Hrange) in Hr. injection Hr as <-.
  split; [|split].
  - apply Forall_forall. intros k Hk. apply in_map_iff in Hk as (i & <- & Hi).
    apply key_at_in. rewrite Forall_forall in Hrange. now apply Hrange.
  - rewrite length_map. now apply in_range_length.
  - intros Hkeys. apply Finite.Injective_map_NoDup_in; [|assumption].
    intros i j Hi Hj. rewrite Forall_forall in Hrange.
    apply key_at_inj; auto.
Qed.

Lemma X5_resolved_keys_are_option_keys_witness :
  Forall (fun k => In k (map key Main.choices)) ["commit-msg"; "pre-commit"]
  /\ (2 <= 3)%nat
  /\ (NoDup (map key Main.choices) -> NoDup ["commit-msg"; "pre-commit"]).
Proof.
  apply (X5_resolved_keys_are_option_keys Main.choices
           [KEY_SPACE; KEY_UP; KEY_SPACE; KEY_DOWN; KEY_SPACE; KEY_ENTER]).
  reflexivity.
Defined.

(** X6. Moving the cursor never changes the selection: after any sequence
    of Up and Down keys, Enter resolves to the key of the first option
    alone, the one the prompt starts with. *)
Theorem X6_moves_keep_default_selection (opt : Opt) (rest : list Opt)
    (moves : list string) :
  Forall (fun k => k = KEY_UP \/ k = KEY_DOWN) moves ->
  selected (run (opt :: rest) moves) = [0]
  /\ status (run (opt :: rest) (moves ++ [KEY_ENTER])) = Resolved [key opt].
Proof.
  intros Hm.
  assert (Hsel : selected (run (opt :: rest) moves) = [0]
                 /\ status (run (opt :: rest) moves) = Pending).
  { unfold run.
    assert (H0 : selected (multiselect (opt :: rest)) = [0]
                 /\ status (multiselect (opt :: rest)) = Pending) by now split.
    revert H0. generalize (multiselect (opt :: rest)).
    induction Hm as [|k ks Hk _ IH]; intros st [Hs Hp]; [now split|].
    rewrite feed_cons, deliver_pending by assumption.
    apply IH. destruct Hk as [-> | ->].
    - rewrite handleKey_up. now split.
    - rewrite handleKey_down. now split. }
  destruct Hsel as [Hsel Hp]. split; [assumption|].
  rewrite (run_snoc _ _ _ Hp), handleKey_enter. cbn [status].
  now rewrite Hsel.
Qed.

Lemma X6_moves_keep_default_selection_witness :
  selected (run Main.choices [KEY_DOWN; KEY_DOWN; KEY_UP]) = [0]
  /\ status (run Main.choices ([KEY_DOWN; KEY_DOWN; KEY_UP] ++ [KEY_ENTER]))
     = Resolved ["pre-commit"].
Proof.
  apply (X6_moves_keep_default_selection
           {| key := "pre-commit"; name := "pre-commit";
              desc := "Runs before creating a commit (tests, linting)" |}
           (tl Main.choices) [KEY_DOWN; KEY_DOWN; KEY_UP]).
  repeat (apply Forall_cons; [first [left; reflexivity | right; reflexivity]|]).
  apply Forall_nil.
Defined.

End ResolvedClaims.

(** ** Every selection can be made *)

Section Reachability.
Import JsSet Multiselect.

Lemma feed_downs (options : list Opt) (k : nat) (st : State) :
  1 <= Z.of_nat (List.length options) ->
  0 <= cursor st < Z.of_nat (List.length options) ->
  status st = Pending ->
  cursor (feed options (repeat KEY_DOWN k) st)
  = (cursor st + Z.of_nat k) mod Z.of_nat (List.length options)
  /\ selected (feed options (repeat KEY_DOWN k) st) = selected st
  /\ status (feed options (repeat KEY_DOWN k) st) = Pending.
Proof.
  intros HN Hc Hp. rewrite feed_repeat_down by assumption.
  destruct (iter_handleKey_down options k st) as (-> & -> & ->).
  now rewrite iter_cursor_down.
Qed.

(** From the first row: down to row [t], Space, and down again to the first
    row.  An index that was not selected is added at the end of the set. *)
Lemma feed_visit (options : list Opt) (t : Z) (st : State) :
  in_range options t ->
  status st = Pending -> cursor st = 0 -> ~ In t (selected st) ->
  let ks := repeat KEY_DOWN (Z.to_nat t) ++ [KEY_SPACE]
              ++ repeat KEY_DOWN (List.length options - Z.to_nat t) in
  status (feed options ks st) = Pending
  /\ cursor (feed options ks st) = 0
  /\ selected (feed options ks st) = selected st ++ [t].
Proof.
  intros [Ht0 HtN] Hp Hc Hnot ks. subst ks.
  assert (HN : 1 <= Z.of_nat (List.length options)) by lia.
  rewrite !feed_app.
  destruct (feed_downs options (Z.to_nat t) st HN) as (Hc1 & Hs1 & Hp1);
    [lia | assumption |].
  set (st1 := feed options (repeat KEY_DOWN (Z.to_nat t)) st) in *.
  rewrite Hc, Z.add_0_l, Z2Nat.id, Z.mod_small in Hc1 by lia.
  change (feed options [KEY_SPACE] st1) with (deliver options st1 KEY_SPACE).
  rewrite deliver_pending, handleKey_space by assumption.
  set (st2 := {| cursor := cursor st1;
                 selected := toggle (cursor st1) (selected st1);
                 trace := trace st1
                            ++ render options (cursor st1)
                                 (toggle (cursor st1) (selected st1));
                 status := status st1 |}).
  destruct (feed_downs options (List.length options - Z.to_nat t) st2 HN)
    as (Hc3 & Hs3 & Hp3); [simpl; lia | assumption |].
  rewrite Hp3, Hc3, Hs3. cbn [cursor selected st2]. rewrite Hc1, Hs1.
  split; [reflexivity|]. split.
  - replace (t + Z.of_nat (List.length options - Z.to_nat t))
      with (Z.of_nat (List.length options)) by lia.
    apply Z.mod_same. lia.
  - unfold toggle, add. apply has_false_iff in Hnot. now rewrite Hnot.
Qed.

Lemma feed_visits (options : list Opt) (target : list Z) (st : State) :
  Forall (in_range options) target ->
  NoDup (selected st ++ target) ->
  status st = Pending -> cursor st = 0 ->
  let ks := flat_map (fun t => repeat KEY_DOWN (Z.to_nat t) ++ [KEY_SPACE]
                         ++ repeat KEY_DOWN (List.length options - Z.to_nat t))
              target in
  status (feed options ks st) = Pending
  /\ cursor (feed options ks st) = 0
  /\ selected (feed options ks st) = selected st ++ target.
Proof.
  intros Hr. revert st. induction Hr as [|t rest Ht _ IH]; intros st Hd Hp Hc.
  - simpl. now rewrite app_nil_r.
  - cbn [flat_map]. cbv zeta. rewrite feed_app.
    assert (Hnot : ~ In t (selected st)).
    { apply NoDup_remove_2 in Hd. intros Hin. apply Hd. apply in_or_app. now left. }
    destruct (feed_visit options t st Ht Hp Hc Hnot) as (Hp1 & Hc1 & Hs1).
    cbv zeta in Hp1, Hc1, Hs1.
    destruct (IH _ ltac:(rewrite Hs1, <- app_assoc; exact Hd) Hp1 Hc1)
      as (Hp2 & Hc2 & Hs2).
    cbv zeta in Hp2, Hc2, Hs2.
    rewrite Hp2, Hc2, Hs2, Hs1, <- app_assoc. now repeat split.
Qed.

(** X7. Every selection can be made, in every order: for any duplicate-free
    list of indices of the options there is a sequence of chunks after which
    the set holds exactly those indices in that order, so that Enter
    resolves to their keys in that order. *)
Theorem X7_any_selection_reachable (options : list Opt) (target : list Z) :
  NoDup target -> Forall (in_range options) target ->
  exists keys,
    selected (run options keys) = target
    /\ status (run options (keys ++ [KEY_ENTER])) = Resolved (map (key_at options) target).
Proof.
  intros Hd Hr.
  exists (KEY_SPACE
            :: flat_map (fun t => repeat KEY_DOWN (Z.to_nat t) ++ [KEY_SPACE]
                           ++ repeat KEY_DOWN (List.length options - Z.to_nat t))
                 target).
  assert (Hrun : status (run options
                          (KEY_SPACE
                             :: flat_map (fun t => repeat KEY_DOWN (Z.to_nat t)
                                            ++ [KEY_SPACE]
                                            ++ repeat KEY_DOWN
                                                 (List.length options - Z.to_nat t))
                                  target)) = Pending
                 /\ selected (run options
                          (KEY_SPACE
                             :: flat_map (fun t => repeat KEY_DOWN (Z.to_nat t)
                                            ++ [KEY_SPACE]
                                            ++ repeat KEY_DOWN
                                                 (List.length options - Z.to_nat t))
                                  target)) = target).
  { unfold run. rewrite feed_cons.
    destruct (feed_visits options target
                (deliver options (multiselect options) KEY_SPACE) Hr)
      as (Hp & _ & Hs); try reflexivity; [exact Hd|].
    cbv zeta in Hp, Hs. now split. }
  destruct Hrun as [Hp Hs]. split; [assumption|].
  rewrite (run_snoc _ _ _ Hp), handleKey_enter. cbn [status].
  rewrite Hs. unfold to_array. now rewrite (map_keys_in_range _ _ Hr).
Qed.

Lemma X7_any_selection_reachable_witness :
  exists keys,
    selected (run Main.choices keys) = [2; 0; 1]
    /\ status (run Main.choices (keys ++ [KEY_ENTER]))
       = Resolved (map (key_at Main.choices) [2; 0; 1]).
Proof.
  apply (X7_any_selection_reachable Main.choices [2; 0; 1]).
  - repeat constructor; simpl; intuition discriminate.
  - repeat constructor; discriminate.
Defined.

End Reachability.

(** ** Chunks the handlers do not know, and chunks that come too late *)

Section IgnoredInput.

(** X8. The multi-select handler knows a chunk only when it is, as a whole,
    one of its five keys.  Any other chunk changes nothing and repaints
    nothing; in particular two keys that arrive in one chunk (two arrows
    from key repeat, Ctrl-C twice) are dropped together. *)
Theorem X8_unknown_chunks_ignored (options : list Opt) (ks : list string)
    (st : Multiselect.State) (k1 k2 : string) :
  Forall (fun k => k <> KEY_CTRL_C /\ k <> KEY_UP /\ k <> KEY_DOWN
                   /\ k <> KEY_SPACE /\ k <> KEY_ENTER) ks ->
  In k1 [KEY_CTRL_C; KEY_UP; KEY_DOWN; KEY_SPACE; KEY_ENTER] ->
  In k2 [KEY_CTRL_C; KEY_UP; KEY_DOWN; KEY_SPACE; KEY_ENTER] ->
  Multiselect.feed options ks st = st
  /\ Multiselect.handleKey options (k1 ++ k2) st = st.
Proof.
  intros Hks H1 H2. split.
  - induction Hks as [|k rest (Ha & Hb & Hc & Hd & He) _ IH]; [reflexivity|].
    rewrite feed_cons. unfold Multiselect.deliver.
    destruct (Multiselect.status st) eqn:E; rewrite ?handleKey_other by assumption;
      exact IH.
  - simpl in H1, H2.
    destruct H1 as [<- | [<- | [<- | [<- | [<- | []]]]]];
      destruct H2 as [<- | [<- | [<- | [<- | [<- | []]]]]]; reflexivity.
Qed.

Lemma X8_unknown_chunks_ignored_witness :
  let st := Multiselect.multiselect Main.choices in
  Multiselect.feed Main.choices ["a"; (KEY_UP ++ KEY_UP)%string; ESC] st = st
  /\ Multiselect.handleKey Main.choices (KEY_CTRL_C ++ KEY_CTRL_C) st = st.
Proof.
  intros st.
  apply (X8_unknown_chunks_ignored Main.choices ["a"; (KEY_UP ++ KEY_UP)%string; ESC] st
           KEY_CTRL_C KEY_CTRL_C).
  - repeat (apply Forall_cons; [repeat split; discriminate|]). apply Forall_nil.
  - simpl. tauto.
  - simpl. tauto.
Defined.



End IgnoredInput.

(** ** The answer of the confirm prompt *)

Section ConfirmAnswer.
Import Confirm.

Lemma confirm_feed_undecided (ks : list string) (st : State) :
  Forall (fun k => k <> KEY_CTRL_C /\ k <> KEY_ENTER /\ k <> "y" /\ k <> "Y"
                   /\ k <> "n" /\ k <> "N") ks ->
  feed ks st = st.
Proof.
  induction 1 as [|k rest (H1 & H2 & H3 & H4 & H5 & H6) _ IH]; [reflexivity|].
  rewrite confirm_feed_cons. unfold deliver.
  destruct (status st); rewrite ?confirm_handleKey_other by assumption; exact IH.
Qed.

(** X10. The confirm prompt is decided by the first chunk that is Enter, a
    letter y or n in either case, or Ctrl-C: the chunks before it are
    ignored and the chunks after it are never looked at. *)
Theorem X10_first_deciding_chunk (question : string) (pre rest : list string)
    (k : string) :
  Forall (fun k => k <> KEY_CTRL_C /\ k <> KEY_ENTER /\ k <> "y" /\ k <> "Y"
                   /\ k <> "n" /\ k <> "N") pre ->
  run question pre = confirm question
  /\ (k = KEY_ENTER \/ k = "y" \/ k = "Y" ->
      status (run question (pre ++ k :: rest)) = Resolved true)
  /\ (k = "n" \/ k = "N" ->
      status (run question (pre ++ k :: rest)) = Resolved false)
  /\ status (run question (pre ++ KEY_CTRL_C :: rest)) = Exited 1.
Proof.
  intros Hpre. unfold run.
  assert (E : forall k', feed (pre ++ k' :: rest) (confirm question)
                         = feed rest (handleKey k' (confirm question))).
  { intros k'. now rewrite confirm_feed_app, (confirm_feed_undecided _ _ Hpre). }
  split; [now apply confirm_feed_undecided|]. split; [|split].
  - intros Hk. rewrite E, confirm_feed_settled; now rewrite confirm_handleKey_yes.
  - intros Hk. rewrite E, confirm_feed_settled; now rewrite confirm_handleKey_no.
  - rewrite E, confirm_feed_settled; now rewrite confirm_handleKey_ctrl_c.
Qed.

Lemma X10_first_deciding_chunk_witness :
  run Main.question ["x"; " "; KEY_UP] = confirm Main.question
  /\ status (run Main.question (["x"; " "; KEY_UP] ++ "N" :: ["y"])) = Resolved false
  /\ status (run Main.question (["x"; " "; KEY_UP] ++ KEY_CTRL_C :: ["y"])) = Exited 1.
Proof.
  destruct (X10_first_deciding_chunk Main.question ["x"; " "; KEY_UP] ["y"] "N")
    as (Hpre & _ & Hno & Hexit).
  - repeat (apply Forall_cons; [repeat split; discriminate|]). apply Forall_nil.
  - split; [exact Hpre|]. split; [|exact Hexit]. apply Hno. now right.
Defined.

(** X11. What the confirm prompt echoes is what it returns: when it resolves
    to [true] the one line written after the question is the green Yes, when
    it resolves to [false] it is the red No, and the listener is removed, raw
    mode left and the stream paused right after. *)
Theorem X11_echo_matches_answer (question : string) (ks : list string) (b : bool) :
  status (run question ks) = Resolved b ->
  trace (run question ks)
  = trace (confirm question)
      ++ [Write (if b then ESC ++ "[32mYes" ++ ESC ++ "[0m" ++ LF
                 else ESC ++ "[31mNo" ++ ESC ++ "[0m" ++ LF);
          RemoveListener; SetRawMode false; Pause].
Proof.
  intros Hb.
  destruct (confirm_run_cases question ks) as [E | [E | [(k & Hk & E) | (k & Hk & E)]]];
    rewrite E in *.
  - discriminate Hb.
  - discriminate Hb.
  - rewrite (confirm_handleKey_yes _ _ Hk) in *. cbn [status trace] in *.
    injection Hb as <-. reflexivity.
  - rewrite (confirm_handleKey_no _ _ Hk) in *. cbn [status trace] in *.
    injection Hb as <-. reflexivity.
Qed.

Lemma X11_echo_matches_answer_witness :
  trace (run Main.question ["q"; "n"; "y"])
  = trace (confirm Main.question)
      ++ [Write (ESC ++ "[31mNo" ++ ESC ++ "[0m" ++ LF);
          RemoveListener; SetRawMode false; Pause].
Proof.
  apply (X11_echo_matches_answer Main.question ["q"; "n"; "y"] false). reflexivity.
Defined.

End ConfirmAnswer.

(** * Properties of [main] *)

(** ** Creating the hook files *)

Section CreateHooks.
Import Main.

Lemma term_effects_app (o1 o2 : list Output) :
  term_effects (o1 ++ o2) = term_effects o1 ++ term_effects o2.
Proof.
  induction o1 as [|o o1 IH]; [reflexivity|].
  destruct o; simpl; now rewrite IH.
Qed.

Lemma term_effects_map_Term (tr : list Effect) : term_effects (map Term tr) = tr.
Proof. induction tr as [|e tr IH]; simpl; [reflexivity | now rewrite IH]. Qed.

Lemma commands_app (o1 o2 : list Output) :
  commands (o1 ++ o2) = commands o1 ++ commands o2.
Proof.
  induction o1 as [|o o1 IH]; [reflexivity|].
  destruct o; simpl; now rewrite IH.
Qed.

Lemma commands_map_Term (tr : list Effect) : commands (map Term tr) = [].
Proof. induction tr as [|e tr IH]; simpl; [reflexivity | exact IH]. Qed.

(** One callback on a directory, for a key that has a template: no error,
    one line logged, and every name bound as before except [key] when it was
    free. *)
Lemma create_hook_Dir (env : Env) (key : string) (e : string -> option Entry) :
  lookup_template TEMPLATES key <> None ->
  exists e' line,
    create_hook env key (Dir e) = inr (Dir e', ConsoleLog line)
    /\ (forall name,
          e' name = match e name with
                    | Some x => Some x
                    | None => if String.eqb name key then hook_file env key else None
                    end)
    /\ (e key <> None -> e' = e).
Proof.
  intros Ht. unfold create_hook, existsSync, hook_file.
  destruct (e key) as [x|] eqn:Ek; cbn [negb].
  - eexists e, _. split; [reflexivity|]. split; [|reflexivity].
    intros name. destruct (e name) eqn:En; [reflexivity|].
    destruct (String.eqb_spec name key) as [-> | _]; [congruence | reflexivity].
  - destruct (lookup_template TEMPLATES key) as [t|]; [|congruence].
    eexists _, _. split; [reflexivity|]. split; [|congruence].
    intros name. unfold write.
    destruct (String.eqb_spec name key) as [-> | _].
    + rewrite Ek. now destruct (chmod_ok env key).
    + now destruct (e name).
Qed.

(** The whole loop on a directory, for keys that have a template. *)
Lemma create_hooks_Dir (env : Env) (keys : list string) (e : string -> option Entry)
    (out : list Output) :
  Forall (fun k => lookup_template TEMPLATES k <> None) keys ->
  exists e' out',
    create_hooks env keys (Dir e) out = (Dir e', out', None)
    /\ (forall name,
          e' name = match e name with
                    | Some x => Some x
                    | None => if existsb (String.eqb name) keys then hook_file env name
                              else None
                    end)
    /\ term_effects out' = term_effects out
    /\ commands out' = commands out
    /\ (Forall (fun k => e k <> None) keys -> e' = e).
Proof.
  intros Hk. revert e out. induction Hk as [|k rest Hk _ IH]; intros e out.
  - exists e, out. split; [reflexivity|]. split; [|now repeat split].
    intros name. now destruct (e name).
  - destruct (create_hook_Dir env k e Hk) as (e1 & line & E1 & He1 & Hsame1).
    destruct (IH e1 (out ++ [ConsoleLog line])) as (e' & out' & E' & He' & Ht & Hc & Hsame).
    exists e', out'. cbn [create_hooks]. rewrite E1.
    split; [exact E'|]. split; [|split; [|split]].
    + intros name. rewrite He', He1. cbn [existsb].
      destruct (e name) as [x|]; [reflexivity|].
      destruct (String.eqb_spec name k) as [-> | _]; cbn [orb]; [|reflexivity].
      unfold hook_file in *. destruct (lookup_template TEMPLATES k); [reflexivity|congruence].
    + rewrite Ht, term_effects_app. simpl. apply app_nil_r.
    + rewrite Hc, commands_app. simpl. apply app_nil_r.
    + intros Hall. inversion Hall as [|? ? Hek Hrest]; subst.
      specialize (Hsame1 Hek). subst e1. now apply Hsame.
Qed.


(** The keys of the options are the keys of [TEMPLATES]. *)
Lemma choices_have_templates (k : string) :
  In k (map key choices) -> lookup_template TEMPLATES k <> None.
Proof.
  intros [<- | [<- | [<- | []]]]; discriminate.
Qed.

End CreateHooks.

(** ** From the selection to the end *)

Section AfterSelect.
Import Main.

Lemma choices_resolved_in (ks : list string) (sel : list string) :
  Multiselect.status (Multiselect.run choices ks) = Resolved sel ->
  Forall (fun k => In k (map key choices)) sel.
Proof.
  intros Hr. apply run_resolved in Hr.
  assert (Hrange : Forall (in_range choices)
                     (Multiselect.selected (Multiselect.run choices ks)))
    by (apply map_keys_defined; congruence).
  rewrite (map_keys_in_range _ _ Hrange) in Hr. injection Hr as <-.
  apply Forall_forall. intros k Hk. apply in_map_iff in Hk as (i & <- & Hi).
  apply key_at_in. rewrite Forall_forall in Hrange. now apply Hrange.
Qed.

Lemma choices_resolved_templates (ks : list string) (sel : list string) :
  Multiselect.status (Multiselect.run choices ks) = Resolved sel ->
  Forall (fun k => lookup_template TEMPLATES k <> None) sel.
Proof.
  intros Hr. apply choices_resolved_in in Hr.
  eapply Forall_impl; [|exact Hr]. apply choices_have_templates.
Qed.



(** What [main] leaves behind once a non-empty selection has been made over
    a hooks path that is missing or a directory. *)
Lemma after_select_spec (env : Env) (w : World) (log : list Output)
    (sel : list string) (ks : list string) :
  sel <> [] ->
  Forall (fun k => lookup_template TEMPLATES k <> None) sel ->
  hooks_dir w <> NotADirectory ->
  exists e',
    hooks_dir (world (after_select env w log sel ks)) = Dir e'
    /\ (forall name,
          e' name = match entry (hooks_dir w) name with
                    | Some x => Some x
                    | None => if existsb (String.eqb name) sel then hook_file env name
                              else None
                    end)
    /\ (Forall (fun k => entry (hooks_dir w) k <> None) sel ->
        hooks_dir (world (after_select env w log sel ks)) = hooks_dir w)
    /\ hooksPath (world (after_select env w log sel ks))
       = (if git_config_ok env then Some HOOKS_DIR else hooksPath w)
    /\ staged (world (after_select env w log sel ks))
       = match Confirm.status (Confirm.run question ks) with
         | Resolved true => if git_add_ok env then true else staged w
         | _ => staged w
         end
    /\ status (after_select env w log sel ks)
       = match Confirm.status (Confirm.run question ks) with
         | Resolved _ => Resolved tt
         | Pending => Pending
         | Exited code => Exited code
         | Thrown err => Thrown err
         end
    /\ term_effects (out (after_select env w log sel ks))
       = term_effects log ++ Confirm.trace (Confirm.run question ks)
    /\ commands (out (after_select env w log sel ks))
       = commands log ++ ["git config core.hooksPath .boru"]
           ++ match Confirm.status (Confirm.run question ks) with
              | Resolved true => ["git add .boru"]
              | _ => []
              end.
Proof.
  intros Hne Ht Hdir. unfold after_select.
  destruct sel as [|k rest]; [congruence|]. cbn [List.length Nat.eqb].
  set (sel := k :: rest) in *.
  set (start := if negb (match hooks_dir w with Missing => false | _ => true end)
                then Dir (fun _ => None) else hooks_dir w).
  assert (Hstart : exists e, start = Dir e
                             /\ (forall name, e name = entry (hooks_dir w) name)
                             /\ (hooks_dir w <> Missing -> hooks_dir w = Dir e)).
  { subst start. destruct (hooks_dir w) as [| |e]; cbn [negb].
    - eexists. split; [reflexivity|]. split; [reflexivity | congruence].
    - congruence.
    - exists e. now repeat split. }
  destruct Hstart as (e & -> & He & Hwas).
  destruct (create_hooks_Dir env sel e (log ++ [ConsoleLog LF]) Ht)
    as (e' & out' & E & He' & Hterm & Hcmd & Hsame).
  rewrite E. exists e'.
  rewrite term_effects_app in Hterm. rewrite commands_app in Hcmd.
  simpl in Hterm, Hcmd. rewrite app_nil_r in Hterm, Hcmd.
  assert (Hentries : forall name,
            e' name = match entry (hooks_dir w) name with
                      | Some x => Some x
                      | None => if existsb (String.eqb name) sel then hook_file env name
                                else None
                      end)
    by (intros name; now rewrite He', He).
  assert (Hkept : Forall (fun k0 => entry (hooks_dir w) k0 <> None) sel ->
                  Dir e' = hooks_dir w).
  { intros Hall.
    assert (Hall' : Forall (fun k0 => e k0 <> None) sel)
      by (eapply Forall_impl; [|exact Hall]; intros a Ha; now rewrite He).
    rewrite (Hsame Hall'). symmetry. apply Hwas.
    inversion Hall as [|? ? Hk _]; subst. intros Hmiss. rewrite Hmiss in Hk.
    now apply Hk. }
  destruct (git_config_ok env); cbv zeta; cbn [fst snd hooks_dir hooksPath staged];
    destruct (Confirm.status (Confirm.run question ks)) as [|[|]| |] eqn:Ec;
    unfold after_confirm; try destruct (git_add_ok env);
    cbn [fst snd out world status hooks_dir hooksPath staged];
    rewrite ?term_effects_app, ?commands_app, ?term_effects_map_Term,
      ?commands_map_Term, ?Hterm, ?Hcmd;
    cbn [term_effects commands app]; rewrite ?app_nil_r, <- ?app_assoc;
    repeat split; try assumption; try reflexivity.
Qed.

End AfterSelect.

(** ** [main], path by path *)

Section MainPaths.
Import Main.

Lemma main_outside_work_tree (env : Env) (w : World) (k1 k2 : list string) :
  in_work_tree env = false ->
  status (main env w k1 k2) = Exited 1
  /\ world (main env w k1 k2) = w
  /\ term_effects (out (main env w k1 k2)) = []
  /\ commands (out (main env w k1 k2)) = ["git rev-parse --is-inside-work-tree"].
Proof. intros H. unfold main. rewrite H. now repeat split. Qed.

Lemma main_resolved (env : Env) (w : World) (k1 k2 : list string) (sel : list string) :
  in_work_tree env = true ->
  Multiselect.status (Multiselect.run choices k1) = Resolved sel ->
  exists log,
    main env w k1 k2 = after_select env w log sel k2
    /\ term_effects log = Multiselect.trace (Multiselect.run choices k1)
    /\ commands log = ["git rev-parse --is-inside-work-tree"].
Proof.
  intros H Hr. unfold main. rewrite H, Hr. cbn [negb].
  eexists. split; [reflexivity|].
  rewrite term_effects_app, commands_app, term_effects_map_Term, commands_map_Term.
  now split.
Qed.

Lemma main_unresolved (env : Env) (w : World) (k1 k2 : list string) :
  in_work_tree env = true ->
  (forall sel, Multiselect.status (Multiselect.run choices k1) <> Resolved sel) ->
  world (main env w k1 k2) = w
  /\ status (main env w k1 k2)
     = match Multiselect.status (Multiselect.run choices k1) with
       | Exited code => Exited code
       | Thrown err => Thrown err
       | _ => Pending
       end
  /\ term_effects (out (main env w k1 k2)) = Multiselect.trace (Multiselect.run choices k1)
  /\ commands (out (main env w k1 k2)) = ["git rev-parse --is-inside-work-tree"].
Proof.
  intros H Hn. unfold main. rewrite H. cbn [negb].
  destruct (Multiselect.status (Multiselect.run choices k1)) as [|sel| |] eqn:E;
    [| now elim (Hn sel) | |];
    cbn [world status out];
    rewrite term_effects_app, commands_app, term_effects_map_Term, commands_map_Term;
    now repeat split.
Qed.

Lemma after_select_empty (env : Env) (w : World) (log : list Output) (ks : list string) :
  status (after_select env w log [] ks) = Exited 0
  /\ world (after_select env w log [] ks) = w
  /\ term_effects (out (after_select env w log [] ks)) = term_effects log
  /\ commands (out (after_select env w log [] ks)) = commands log.
Proof.
  unfold after_select. cbn [List.length Nat.eqb world status out].
  rewrite !term_effects_app, !commands_app. simpl. rewrite !app_nil_r.
  now repeat split.
Qed.


End MainPaths.

(** ** What [main] does to the hooks directory *)

Section MainFiles.
Import Main.

(** X12. [main] never overwrites: whatever the keys typed and however the
    git commands and [chmodSync] turn out, a name that was bound under the
    hooks directory before the run is bound to the same entry after it. *)
Theorem X12_main_never_overwrites (env : Env) (w : World) (k1 k2 : list string)
    (name : string) (x : Entry) :
  entry (hooks_dir w) name = Some x ->
  entry (hooks_dir (world (main env w k1 k2))) name = Some x.
Proof.
  intros Hx.
  destruct (in_work_tree env) eqn:Hg.
  2:{ destruct (main_outside_work_tree env w k1 k2 Hg) as (_ & -> & _). exact Hx. }
  destruct (Multiselect.status (Multiselect.run choices k1)) as [|sel| |] eqn:Hs.
  2:{ destruct (main_resolved env w k1 k2 sel Hg Hs) as (log & -> & _).
      destruct sel as [|k rest].
      - destruct (after_select_empty env w log k2) as (_ & -> & _). exact Hx.
      - destruct (after_select_spec env w log (k :: rest) k2) as (e' & -> & He' & _).
        + discriminate.
        + now apply choices_resolved_templates in Hs.
        + intros Hd. rewrite Hd in Hx. discriminate Hx.
        + cbn [entry]. now rewrite He', Hx. }
  all: destruct (main_unresolved env w k1 k2 Hg) as (-> & _);
    [intros sel; rewrite Hs; discriminate | exact Hx].
Qed.

Lemma X12_main_never_overwrites_witness :
  let env := {| in_work_tree := true; chmod_ok := fun _ => true;
                git_config_ok := true; git_add_ok := true |} in
  let w := {| hooks_dir := Dir (fun n => if String.eqb n "pre-commit"
                                         then Some (File "#!/bin/sh" false) else None);
              hooksPath := None; staged := false |} in
  status (main env w [KEY_ENTER] ["y"]) = Resolved tt
  /\ entry (hooks_dir (world (main env w [KEY_ENTER] ["y"]))) "pre-commit"
     = Some (File "#!/bin/sh" false).
Proof.
  intros env w. split; [reflexivity|].
  apply (X12_main_never_overwrites env w [KEY_ENTER] ["y"] "pre-commit"). reflexivity.
Defined.





End MainFiles.

(** ** What [main] does to the repository *)

Section MainGit.
Import Main.







End MainGit.

(** ** Running [main] again, and the terminal it leaves *)

Section MainAgain.
Import Main.







End MainAgain.
